(** * Expense ledger (main.py): a shallow embedding and its contract

    The program is a set of tool functions over one SQLite table,

      expenses(id INTEGER PRIMARY KEY AUTOINCREMENT, date TEXT NOT NULL,
               amount REAL NOT NULL, category TEXT NOT NULL,
               subcategory TEXT DEFAULT '', note TEXT DEFAULT '')

    Every function opens a connection, runs one or two statements and
    returns a dict.  The embedding has three layers:

    - the Python values a caller can pass where the code coerces with
      [int(...)] (None, bool, int, float, str, list, dict), the numbers it
      can pass as an amount, and the string methods used to normalise
      [expense_ids];
    - the table as a finite map from the primary key to the other five
      columns, with the statements the code issues as operations of a small
      state-and-exception monad: a statement can raise when it has more
      parameters than the SQLite build allows, when an integer parameter is
      outside 64 bits, when the id sequence is exhausted, and when the
      amount would be NULL;
    - the tool functions themselves, written statement by statement.

    A float is a binary64 value, given by sign, mantissa and exponent
    ([spec_float]).  The SUM aggregate of SQLite is a parameter, and so is
    the largest number of parameters of a statement, a build option.
    Dates, categories, subcategories and notes are strings.  Faults of the
    machine (full disk, locked file) are left out. *)

From Stdlib Require Import ZArith String Ascii SpecFloat.
From stdpp Require Import gmap strings list sorting.

Local Open Scope string_scope.
Local Open Scope list_scope.
Local Open Scope Z_scope.

(** ** Python strings

    A [string] stands for a Python [str] whose code points are below 256;
    an [ascii] is one code point. *)

Module Str.

Definition code (c : ascii) : Z := Z.of_N (N_of_ascii c).

(** [str.isspace] on one code point below 256: what [str.split()] with no
    separator splits on. *)
Definition isspace (c : ascii) : bool :=
  let n := code c in
  (9 <=? n) && (n <=? 13) || (28 <=? n) && (n <=? 32)
  || (n =? 133) || (n =? 160).

(** The white space [int(str)] skips at both ends: the ASCII white space
    of C (9..13 and 32) and the non-ASCII Unicode spaces, but not the
    separators 28..31. *)
Definition int_space (c : ascii) : bool :=
  let n := code c in
  (9 <=? n) && (n <=? 13) || (n =? 32) || (n =? 133) || (n =? 160).

Definition isdigit (c : ascii) : bool :=
  let n := code c in (48 <=? n) && (n <=? 57).

Definition digit (c : ascii) : Z := code c - 48.

(** [s.replace(old, new)] for one-character [old] and [new]. *)
Fixpoint replace (old new : ascii) (s : string) : string :=
  match s with
  | EmptyString => EmptyString
  | String c s' =>
      String (if Ascii.eqb c old then new else c) (replace old new s')
  end.

Definition snoc (s : string) (c : ascii) : string :=
  String.append s (String c EmptyString).

Definition flush (cur : string) : list string :=
  match cur with EmptyString => [] | _ => [cur] end.

(** [s.split()]: the maximal runs of characters that are not white space.
    [cur] is the run being read. *)
Fixpoint split_from (cur : string) (s : string) : list string :=
  match s with
  | EmptyString => flush cur
  | String c s' =>
      if isspace c then flush cur ++ split_from EmptyString s'
      else split_from (snoc cur c) s'
  end.

Definition split (s : string) : list string := split_from EmptyString s.

(** Truth value of a [str]: false exactly for the empty string. *)
Definition truthy (s : string) : bool :=
  match s with EmptyString => false | _ => true end.

Fixpoint lstrip (cs : list ascii) : list ascii :=
  match cs with
  | c :: cs' => if int_space c then lstrip cs' else cs
  | [] => []
  end.

Definition strip (cs : list ascii) : list ascii :=
  rev (lstrip (rev (lstrip cs))).

(** Decimal digits with single underscores between them.  Returns the
    value and the number of digits read. *)
Fixpoint digits (cs : list ascii) (acc : Z) (n : nat) : option (Z * nat) :=
  match cs with
  | [] => Some (acc, n)
  | c :: cs' =>
      if isdigit c then digits cs' (10 * acc + digit c) (S n)
      else if Ascii.eqb c "_" then
        match cs' with
        | d :: _ => if isdigit d then digits cs' acc n else None
        | [] => None
        end
      else None
  end.

(** CPython refuses to convert more than this many digits (the default of
    [sys.get_int_max_str_digits()]). *)
Definition int_max_str_digits : nat := 4300.

Definition unsigned (cs : list ascii) : option Z :=
  match cs with
  | c :: _ =>
      if isdigit c then
        match digits cs 0 0%nat with
        | Some (v, n) =>
            if (int_max_str_digits <? n)%nat then None else Some v
        | None => None
        end
      else None
  | [] => None
  end.

(** [int(s)] in base ten; [None] stands for [ValueError]. *)
Definition to_int (s : string) : option Z :=
  match strip (list_ascii_of_string s) with
  | c :: cs =>
      if Ascii.eqb c "-" then Z.opp <$> unsigned cs
      else if Ascii.eqb c "+" then unsigned cs
      else unsigned (c :: cs)
  | [] => None
  end.

End Str.

(** ** Python values

    The arguments the tool functions coerce or inspect at run time
    ([expense_id], [expense_ids]) are dynamically typed.  A tuple is a
    [PyList]: the code treats the two alike. *)

#[warnings="-register-all"]
Inductive pyval : Type :=
  | PyNone
  | PyBool (b : bool)
  | PyInt (n : Z)
  | PyFloat (f : spec_float)
  | PyStr (s : string)
  | PyList (items : list pyval)
  | PyDict (entries : list (pyval * pyval)).

(** What [int(v)] does. *)
Inductive coercion : Type :=
  | Coerced (n : Z)
  | Refused     (* TypeError or ValueError: the errors the code catches *)
  | Overflows.  (* OverflowError, which it does not catch *)

Global Instance coercion_eq_dec : EqDecision coercion.
Proof. solve_decision. Defined.

(** [int(f)] on a float: the value with its fraction dropped;
    [ValueError] for NaN, [OverflowError] for an infinity. *)
Definition float_to_int (f : spec_float) : coercion :=
  match f with
  | S754_zero _ => Coerced 0
  | S754_infinity _ => Overflows
  | S754_nan => Refused
  | S754_finite negative m e =>
      let magnitude :=
        if 0 <=? e then Z.pos m * 2 ^ e else Z.pos m / 2 ^ (- e) in
      Coerced (if negative then - magnitude else magnitude)
  end.

Definition py_int (v : pyval) : coercion :=
  match v with
  | PyNone => Refused
  | PyBool b => Coerced (if b then 1 else 0)
  | PyInt n => Coerced n
  | PyFloat f => float_to_int f
  | PyStr s =>
      match Str.to_int s with
      | Some n => Coerced n
      | None => Refused
      end
  | PyList _ => Refused
  | PyDict _ => Refused
  end.

(** ** Amounts

    The amount argument is taken to be a Python number, an int or a
    float.  The column is REAL NOT NULL: an int is stored as the nearest
    double, a float as it is, except that NaN is bound as NULL and that the
    sign of a zero is not kept. *)

Inductive number : Type :=
  | NumInt (n : Z)
  | NumFloat (f : spec_float).

(** The REAL type of SQLite: binary64. *)
Abbreviation real := spec_float.

(** The double nearest to an integer, ties to the even mantissa. *)
Definition real_of_int (n : Z) : real :=
  binary_normalize 53 1024 n 0 false.

(** The value the amount column takes; [None] stands for NULL. *)
Definition real_column (a : number) : option real :=
  match a with
  | NumInt n => Some (real_of_int n)
  | NumFloat S754_nan => None
  | NumFloat (S754_zero _) => Some (S754_zero false)
  | NumFloat f => Some f
  end.

(** ** The table *)

(** The five columns of a row besides the primary key. *)
Record row {real : Type} : Type := Row {
  date : string;
  amount : real;
  category : string;
  subcategory : string;
  note : string
}.
Global Arguments row : clear implicits.
Global Arguments Row {real} _ _ _ _ _.

(** A row as a query returns it: the [id] column and the other five. *)
Record expense {real : Type} : Type := Expense {
  id : Z;
  columns : row real
}.
Global Arguments expense : clear implicits.
Global Arguments Expense {real} _ _.

(** The database file: the rows by primary key, and the AUTOINCREMENT
    counter (the largest id ever handed out, which SQLite keeps in
    [sqlite_sequence]). *)
Record store {real : Type} : Type := Store {
  rows : gmap Z (row real);
  seq : Z
}.
Global Arguments store : clear implicits.
Global Arguments Store {real} _ _.

(** One entry of the dict list that [summarize] returns. *)
Record summary {real : Type} : Type := Summary {
  summary_category : string;
  total_amount : real
}.
Global Arguments summary : clear implicits.
Global Arguments Summary {real} _ _.

(** ** Results of the tool functions *)

Inductive status : Type := ok | not_found | no_change | error.

(** The dicts the tool functions return, one constructor per shape. *)
Inductive result : Type :=
  | Added (st : status) (new_id : Z)
      (* {"status": st, "id": new_id} *)
  | Deleted (st : status) (deleted : Z)
      (* {"status": st, "deleted": deleted} *)
  | DeletedMany (st : status) (deleted : Z) (missing : list Z)
      (* {"status": st, "deleted": deleted, "missing": missing} *)
  | Updated (st : status) (updated : Z)
      (* {"status": st, "updated": updated} *)
  | Failed (st : status) (message : string)
      (* {"status": st, "message": message} *)
  | FailedInvalid (st : status) (message : string) (invalid : list pyval).
      (* {"status": st, "message": message, "invalid": invalid} *)

Definition status_of (r : result) : status :=
  match r with
  | Added st _ | Deleted st _ | DeletedMany st _ _ | Updated st _
  | Failed st _ | FailedInvalid st _ _ => st
  end.

(** ** Connections: state and exceptions *)

(** The exceptions the code does not catch:
    - [OverflowError]: [int(...)] of an infinite float, and the sqlite3
      module when asked to bind a Python int outside SQLite's 64-bit
      INTEGER;
    - [OperationalError]: a statement with more parameters than the build
      allows, and an INSERT when the id sequence is exhausted;
    - [IntegrityError]: a NULL for the NOT NULL amount column. *)
Inductive exn : Type :=
  | OverflowError
  | OperationalError (message : string)
  | IntegrityError (message : string).

(** What a call does: it returns a value and commits the new content of the
    file, or it raises and the connection rolls back. *)
Inductive outcome {real : Type} (R : Type) : Type :=
  | Done (r : R) (s : store real)
  | Raised (e : exn).
Global Arguments outcome : clear implicits.
Global Arguments Done {real R} r s.
Global Arguments Raised {real R} e.

Definition db (real R : Type) : Type := store real → outcome real R.

Global Instance db_ret {real} : MRet (db real) :=
  λ R (r : R) s, Done r s.

Global Instance db_bind {real} : MBind (db real) :=
  λ R R' (k : R → db real R') (m : db real R) s,
    match m s with
    | Done r s' => k r s'
    | Raised e => Raised e
    end.

Definition raise {real R} (e : exn) : db real R := λ _, Raised e.

(** The content of the file after a call that started from [s]. *)
Definition store_after {real R} (o : outcome real R) (s : store real)
    : store real :=
  match o with Done _ s' => s' | Raised _ => s end.

(** ** Statements *)

Definition INT64_MIN : Z := - 2 ^ 63.
Definition INT64_MAX : Z := 2 ^ 63 - 1.

Definition fits_int64 (n : Z) : Prop := INT64_MIN ≤ n ≤ INT64_MAX.

Global Instance fits_int64_dec n : Decision (fits_int64 n).
Proof. unfold fits_int64. apply _. Defined.

(** The largest number of parameters a statement may have is fixed when
    SQLite is built (999 before version 3.32, 32766 since, more in some
    distributions).  The statements of this program have up to six
    parameters besides the IN lists; a build that allows fewer cannot
    prepare them and is not considered.  The limit on the length of a
    statement's text is taken to be out of reach before this one, as it is
    in those builds. *)
Class sqlite_build : Type := {
  SQLITE_MAX_VARIABLE_NUMBER : Z;
  fixed_statements_allowed : 6 ≤ SQLITE_MAX_VARIABLE_NUMBER
}.

(** A parameter of a statement: a Python int, float or str. *)
Inductive param : Type :=
  | ParamInt (n : Z)
  | ParamFloat (f : spec_float)
  | ParamStr (s : string).

Definition param_of_number (a : number) : param :=
  match a with
  | NumInt n => ParamInt n
  | NumFloat f => ParamFloat f
  end.

(** An int is bound as a 64-bit INTEGER. *)
Definition bindable (p : param) : Prop :=
  match p with
  | ParamInt n => fits_int64 n
  | ParamFloat _ | ParamStr _ => True
  end.

Global Instance bindable_dec p : Decision (bindable p).
Proof. destruct p; simpl; apply _. Defined.

Definition NOT_NULL_amount : exn :=
  IntegrityError "NOT NULL constraint failed: expenses.amount".

Section statements.
Context `{!sqlite_build}.

Local Abbreviation row := (row real).
Local Abbreviation expense := (expense real).
Local Abbreviation db := (db real).

(** [cursor.execute(sql, params)]: the statement is prepared, which fails
    when it has too many parameters; the parameters are bound, which fails
    on an int outside 64 bits; then the statement runs. *)
Definition execute {R} (stmt : db R) (params : list param) : db R :=
  λ s, if decide (Z.of_nat (length params) ≤ SQLITE_MAX_VARIABLE_NUMBER)
       then
         if decide (Forall bindable params) then stmt s
         else Raised OverflowError
       else Raised (OperationalError "too many SQL variables").

(** The largest key of the table, 0 when it is empty. *)
Definition max_rowid (m : gmap Z row) : Z :=
  foldr Z.max 0 (map_to_list m).*1.

(** INSERT INTO expenses(date, amount, category, subcategory, note)
    VALUES (?,?,?,?,?), returning [lastrowid].  With AUTOINCREMENT the new
    id is one more than the largest id the table has ever held; when that
    is the largest 64-bit integer the statement fails, before the
    constraints of the row are looked at. *)
Definition insert (date : string) (amount : number)
    (category subcategory note : string) : db Z :=
  λ s, let largest := Z.max (seq s) (max_rowid (rows s)) in
       if decide (INT64_MAX ≤ largest) then
         Raised (OperationalError "database or disk is full")
       else
         match real_column amount with
         | None => Raised NOT_NULL_amount
         | Some amount =>
             let i := largest + 1 in
             Done i {| rows := <[i := Row date amount category subcategory
                                       note]> (rows s);
                       seq := i |}
         end.

(** SELECT id, date, amount, category, subcategory, note FROM expenses
    WHERE w, then [fetchall()]: the selected rows, in no particular
    order. *)
Definition selected (w : Z → row → bool) (s : store real)
    : list expense :=
  (λ ir, Expense ir.1 ir.2) <$>
    map_to_list (filter (λ ir, w ir.1 ir.2) (rows s)).

Definition select (w : Z → row → bool) : db (list expense) :=
  λ s, Done (selected w s) s.

(** ORDER BY id ASC. *)
Definition by_id : relation expense := λ e1 e2, id e1 ≤ id e2.

Global Instance by_id_dec e1 e2 : Decision (by_id e1 e2).
Proof. unfold by_id. apply _. Defined.

Definition order_by_id (es : list expense) : list expense :=
  merge_sort by_id es.

(** DELETE FROM expenses WHERE w, returning [rowcount]: the number of
    rows deleted. *)
Definition delete_where (w : Z → bool) : db Z :=
  λ s, Done
         (Z.of_nat (size (filter (λ ir, w ir.1) (rows s))))
         {| rows := filter (λ ir, ¬ w ir.1) (rows s); seq := seq s |}.

(** UPDATE expenses SET ... WHERE w, returning [rowcount].  [set] gives
    the new columns of a row, or [None] when they break the NOT NULL
    constraint, which fails the statement.  SQLite counts every row the
    WHERE clause selects, whether or not the assignment changes a column
    of it. *)
Definition update_where (set : row → option row) (w : Z → bool) : db Z :=
  λ s, let matched := filter (λ ir, w ir.1) (rows s) in
       if decide (map_Forall (λ _ r, is_Some (set r)) matched) then
         Done
           (Z.of_nat (size matched))
           {| rows := map_imap
                        (λ i r, Some (if w i then default r (set r) else r))
                        (rows s);
              seq := seq s |}
       else Raised NOT_NULL_amount.

(** date BETWEEN lo AND hi, on TEXT: byte-wise comparison. *)
Definition between (d lo hi : string) : bool :=
  String.leb lo d && String.leb d hi.

End statements.

(** ** The tool functions *)

Section tools.
Context `{!sqlite_build}.

(** The SUM aggregate of SQLite over the amounts of one group. *)
Variable sql_sum : list real → real.

Local Abbreviation row := (row real).
Local Abbreviation expense := (expense real).
Local Abbreviation summary := (summary real).
Local Abbreviation db := (db real).

(** [subcategory] and [note] are [None] when the caller omits them. *)
Definition add_expense (date : string) (amount : number) (category : string)
    (subcategory note : option string) : db result :=
  let subcategory := default "" subcategory in
  let note := default "" note in
  lastrowid ← execute (insert date amount category subcategory note)
                [ParamStr date; param_of_number amount; ParamStr category;
                 ParamStr subcategory; ParamStr note];
  mret (Added ok lastrowid).

Definition list_expenses (start_date end_date : string)
    : db (list expense) :=
  fetchall ← execute (select (λ _ r, between (date r) start_date end_date))
               [ParamStr start_date; ParamStr end_date];
  mret (order_by_id fetchall).

Definition delete_expense (expense_id : pyval) : db result :=
  match py_int expense_id with
  | Refused => mret (Failed error "expense_id must be an integer")
  | Overflows => raise OverflowError
  | Coerced expense_id =>
      rowcount ← execute (delete_where (λ i, i =? expense_id))
                   [ParamInt expense_id];
      if rowcount =? 0 then mret (Deleted not_found 0)
      else mret (Deleted ok rowcount)
  end.

(** The three shapes [expense_ids] may have. *)
Definition raw_ids (expense_ids : pyval) : list pyval :=
  match expense_ids with
  | PyStr s =>
      PyStr <$> filter Str.truthy (Str.split (Str.replace "," " " s))
  | PyList items => items
  | _ => [expense_ids]
  end.

(** The loop over [raw_ids], from the lists [ids] and [invalid] built so
    far; [None] when an [int(item)] raises [OverflowError], which ends the
    loop and the call. *)
Fixpoint coerce (raw : list pyval) (ids : list Z) (invalid : list pyval)
    : option (list Z * list pyval) :=
  match raw with
  | [] => Some (ids, invalid)
  | item :: raw' =>
      match py_int item with
      | Coerced n => coerce raw' (ids ++ [n]) invalid
      | Refused => coerce raw' ids (invalid ++ [item])
      | Overflows => None
      end
  end.

(** [sorted] on a set of ints. *)
Definition sorted (X : gset Z) : list Z := merge_sort Z.le (elements X).

Definition delete_expenses (expense_ids : pyval) (delete_all : bool)
    : db result :=
  if delete_all then
    rowcount ← execute (delete_where (λ _, true)) [];
    mret (Deleted ok rowcount)
  else
    match expense_ids with
    | PyNone =>
        mret (Failed error "provide expense_ids or set delete_all=true")
    | _ =>
        match coerce (raw_ids expense_ids) [] [] with
        | None => raise OverflowError
        | Some (ids, invalid) =>
            match invalid, ids with
            | _ :: _, _ =>
                mret (FailedInvalid error "expense_ids must be integers"
                        invalid)
            | [], [] => mret (Failed error "no valid expense_ids provided")
            | [], _ :: _ =>
                let in_ids := λ i : Z, bool_decide (i ∈ ids) in
                fetchall ← execute (select (λ i _, in_ids i))
                             (ParamInt <$> ids);
                let existing : gset Z := list_to_set (id <$> fetchall) in
                rowcount ← execute (delete_where in_ids) (ParamInt <$> ids);
                let missing := sorted (list_to_set ids ∖ existing) in
                let status := if 0 <? rowcount then ok else not_found in
                mret (DeletedMany status rowcount missing)
            end
        end
    end.

(** One "column = ?" of the SET clause with its parameter. *)
Inductive assignment : Type :=
  | SetDate (v : string)
  | SetAmount (v : number)
  | SetCategory (v : string)
  | SetSubcategory (v : string)
  | SetNote (v : string).

Definition parameter (a : assignment) : param :=
  match a with
  | SetAmount v => param_of_number v
  | SetDate v | SetCategory v | SetSubcategory v | SetNote v => ParamStr v
  end.

(** The row after one assignment; [None] when the amount would be NULL. *)
Definition assign (r : row) (a : assignment) : option row :=
  match a with
  | SetDate v =>
      Some (Row v (amount r) (category r) (subcategory r) (note r))
  | SetAmount v =>
      match real_column v with
      | Some v => Some (Row (date r) v (category r) (subcategory r) (note r))
      | None => None
      end
  | SetCategory v =>
      Some (Row (date r) (amount r) v (subcategory r) (note r))
  | SetSubcategory v =>
      Some (Row (date r) (amount r) (category r) v (note r))
  | SetNote v =>
      Some (Row (date r) (amount r) (category r) (subcategory r) v)
  end.

(** The row after the assignments of a SET clause, in turn. *)
Definition assign_all (fields : list assignment) (r : row) : option row :=
  foldl (λ r' a, r' ≫= λ r', assign r' a) (Some r) fields.

(** The amount a row has after "amount = ?" with the argument [amount],
    its old amount when the argument is omitted; [None] when it would be
    NULL. *)
Definition new_amount (old : real) (amount : option number) : option real :=
  match amount with
  | Some v => real_column v
  | None => Some old
  end.

(** [fields.append(...)] when the argument is not [None]. *)
Definition append_if {V} (fields : list assignment) (mk : V → assignment)
    (arg : option V) : list assignment :=
  match arg with
  | Some v => fields ++ [mk v]
  | None => fields
  end.

(** The SET clause [update_expense] assembles from its arguments. *)
Definition set_clause (date : option string) (amount : option number)
    (category subcategory note : option string) : list assignment :=
  let fields := [] in
  let fields := append_if fields SetDate date in
  let fields := append_if fields SetAmount amount in
  let fields := append_if fields SetCategory category in
  let fields := append_if fields SetSubcategory subcategory in
  let fields := append_if fields SetNote note in
  fields.

Definition update_expense (expense_id : pyval) (date : option string)
    (amount : option number) (category subcategory note : option string)
    : db result :=
  match py_int expense_id with
  | Refused => mret (Failed error "expense_id must be an integer")
  | Overflows => raise OverflowError
  | Coerced expense_id =>
      let fields := set_clause date amount category subcategory note in
      match fields with
      | [] => mret (Failed error "provide at least one field to update")
      | _ :: _ =>
          let params := (parameter <$> fields) ++ [ParamInt expense_id] in
          let is_id := λ i : Z, i =? expense_id in
          rowcount ← execute (update_where (assign_all fields) is_id) params;
          if rowcount =? 0 then
            fetchall ← execute (select (λ i _, is_id i))
                         [ParamInt expense_id];
            match head fetchall with
            | Some _ => mret (Updated no_change 0)
            | None => mret (Updated not_found 0)
            end
          else mret (Updated ok rowcount)
      end
  end.

(** category = ? *)
Definition category_is (c : string) (r : row) : bool :=
  String.eqb (category r) c.

(** GROUP BY category with SUM(amount), ORDER BY category ASC. *)
Definition group_by_category (es : list expense) : list summary :=
  let rs := columns <$> es in
  (λ c, Summary c
          (sql_sum (amount <$> filter (λ r, category r = c) rs)))
    <$> merge_sort String.le (remove_dups (category <$> rs)).

(** The WHERE clause [summarize] assembles: the date range, and the
    category when the argument is truthy. *)
Definition where_clause (start_date end_date : string)
    (category : option string) : row → bool :=
  let query := λ r : row, between (date r) start_date end_date in
  match category with
  | Some c =>
      if Str.truthy c then λ r, query r && category_is c r else query
  | None => query
  end.

(** The parameters that go with the WHERE clause. *)
Definition where_params (start_date end_date : string)
    (category : option string) : list param :=
  let params := [ParamStr start_date; ParamStr end_date] in
  match category with
  | Some c => if Str.truthy c then params ++ [ParamStr c] else params
  | None => params
  end.

Definition summarize (start_date end_date : string)
    (category : option string) : db (list summary) :=
  fetchall ← execute
               (select (λ _ r, where_clause start_date end_date category r))
               (where_params start_date end_date category);
  mret (group_by_category fetchall).

(** The calls that write to the store, as the tool framework dispatches
    them. *)
Inductive call : Type :=
  | Delete (expense_id : pyval)
  | DeleteMany (expense_ids : pyval) (delete_all : bool)
  | Update (expense_id : pyval) (date : option string)
      (amount : option number) (category subcategory note : option string).

Definition run (c : call) : db result :=
  match c with
  | Delete expense_id => delete_expense expense_id
  | DeleteMany expense_ids delete_all =>
      delete_expenses expense_ids delete_all
  | Update expense_id date amount category subcategory note =>
      update_expense expense_id date amount category subcategory note
  end.

End tools.

Definition message_of (r : result) : option string :=
  match r with
  | Failed _ message | FailedInvalid _ message _ => Some message
  | _ => None
  end.

(** ** The contract in the words of the specification *)

(** "Split on commas and whitespace into tokens", "empty tokens
    discarded". *)
Definition is_separator (c : ascii) : bool :=
  Ascii.eqb c "," || Str.isspace c.

(** The pieces between consecutive separators; [cur] is the piece being
    read. *)
Fixpoint pieces (cur : string) (s : string) : list string :=
  match s with
  | EmptyString => [cur]
  | String c s' =>
      if is_separator c then cur :: pieces EmptyString s'
      else pieces (Str.snoc cur c) s'
  end.

Definition tokens (s : string) : list string :=
  filter (λ t, t ≠ "") (pieces "" s).

(** "Coercible to an integer". *)
Definition coercible (v : pyval) : Prop := ∃ n, py_int v = Coerced n.

(** The ids among the items. *)
Definition coercibles (raw : list pyval) : list Z :=
  omap (λ item, match py_int item with
                | Coerced n => Some n
                | Refused | Overflows => None
                end) raw.

(** The validation failures: "malformed id, missing required selector,
    empty field set".  The selectors of a bulk delete are looked at only on
    the path that deletes by id, that is when [delete_all] is false. *)
Inductive validation_failure : call → Prop :=
  | delete_id_malformed expense_id :
      ¬ coercible expense_id →
      validation_failure (Delete expense_id)
  | update_id_malformed expense_id date amount' category subcategory note :
      ¬ coercible expense_id →
      validation_failure
        (Update expense_id date amount' category subcategory note)
  | ids_absent :
      validation_failure (DeleteMany PyNone false)
  | token_malformed expense_ids item :
      expense_ids ≠ PyNone →
      item ∈ raw_ids expense_ids → ¬ coercible item →
      validation_failure (DeleteMany expense_ids false)
  | ids_empty expense_ids :
      expense_ids ≠ PyNone →
      coercibles (raw_ids expense_ids) = [] →
      validation_failure (DeleteMany expense_ids false)
  | no_field expense_id :
      validation_failure (Update expense_id None None None None None).

(** The values a call passes to [int(...)]. *)
Definition coerced_values (c : call) : list pyval :=
  match c with
  | Delete expense_id | Update expense_id _ _ _ _ _ => [expense_id]
  | DeleteMany expense_ids delete_all =>
      if delete_all then []
      else match expense_ids with
           | PyNone => []
           | _ => raw_ids expense_ids
           end
  end.

(** The rows a summary is about: date in the inclusive range and, when a
    category filter is given (a non-empty string), that category. *)
Definition in_scope (start_date end_date : string)
    (category_filter : option string) (r : row real) : Prop :=
  (start_date ≤ date r)%string ∧ (date r ≤ end_date)%string
  ∧ ∀ c, category_filter = Some c → c ≠ "" → category r = c.

(** ** A sample ledger *)

(** SQLite's default limit on the parameters of a statement. *)
Definition default_build : sqlite_build :=
  {| SQLITE_MAX_VARIABLE_NUMBER := 32766;
     fixed_statements_allowed := ltac:(done) |}.

(** The amounts added up in turn, which is what SUM gives on the whole
    amounts of this ledger. *)
Definition fsum (amounts : list real) : real :=
  foldl (SFadd 53 1024) (S754_zero false) amounts.

Definition empty_ledger : store real := Store ∅ 0.

Definition lunch : row real :=
  Row "2024-01-05" (real_of_int 4250) "Food" "Lunch" "Deli".

(** The ledger after add("2024-01-05", 4250, "Food", "Lunch", "Deli"). *)
Definition ledger : store real := Store {[ 1 := lunch ]} 1.

(** ** Start-up and sessions *)

(** [init_db()]: CREATE TABLE IF NOT EXISTS expenses(...).  The file is
    [None] as long as it holds no expenses table; the result is the table
    the tool functions then work on. *)
Definition init_db (file : option (store real)) : store real :=
  match file with
  | Some s => s
  | None => Store ∅ 0
  end.

(** The calls that can write: [add_expense], and the three of [call]. *)
Inductive command : Type :=
  | DoAdd (date : string) (amount' : number) (category : string)
      (subcategory note : option string)
  | DoCall (c : call).

(** The store a command leaves behind, whatever it returns or raises. *)
Definition step `{!sqlite_build} (cmd : command) (s : store real)
    : store real :=
  match cmd with
  | DoAdd date amount' category subcategory note =>
      store_after (add_expense date amount' category subcategory note s) s
  | DoCall c => store_after (run c s) s
  end.

Definition session `{!sqlite_build} (cmds : list command) (s : store real)
    : store real :=
  foldl (λ s cmd, step cmd s) s cmds.

Definition is_add (cmd : command) : bool :=
  match cmd with
  | DoAdd _ _ _ _ _ => true
  | DoCall _ => false
  end.

(** The number of [add_expense] calls among the commands. *)
Definition adds (cmds : list command) : Z :=
  Z.of_nat (length (filter is_add cmds)).

(** [s'] has the counter of [s] and no id that [s] does not have. *)
Definition no_new_ids (s s' : store real) : Prop :=
  seq s' = seq s ∧ ∀ i, is_Some (rows s' !! i) → is_Some (rows s !! i).

Global Instance pyval_none_dec (v : pyval) : Decision (v = PyNone).
Proof. destruct v; (by left) || (by right). Defined.

(** Every id in the table is positive and at most the AUTOINCREMENT
    counter. *)
Definition ids_bounded (s : store real) : Prop :=
  0 ≤ seq s ∧ ∀ i r, rows s !! i = Some r → 0 < i ≤ seq s.

(** * Properties *)

(** ** Sorting *)

Section sorting_facts.
Context {K : Type} (R : relation K) `{!PartialOrder R}.

(** A sorted list without repetition is strictly sorted, each element
    against all later ones. *)
Lemma Sorted_NoDup_strict (l : list K) :
  Sorted R l → NoDup l → StronglySorted (strict R) l.
Proof.
  intros Hs%Sorted_StronglySorted; [|apply _].
  induction Hs as [|x l Hs IH Hx]; intros Hnd; [constructor|].
  apply NoDup_cons in Hnd as [Hx_notin Hnd].
  constructor; [by apply IH|].
  apply Forall_forall. intros y Hy. split.
  - eapply Forall_forall in Hx; eauto.
  - intros Hyx. eapply Forall_forall in Hx; [|exact Hy].
    assert (x = y) as -> by (by apply (anti_symm R)). done.
Qed.

Lemma merge_sort_strict `{!Total R} `{!∀ x y, Decision (R x y)}
    (l : list K) :
  NoDup l → StronglySorted (strict R) (merge_sort R l).
Proof.
  intros Hnd. apply Sorted_NoDup_strict.
  - by apply Sorted_merge_sort.
  - by rewrite merge_sort_Permutation.
Qed.

Lemma elem_of_merge_sort `{!∀ x y, Decision (R x y)} (l : list K) x :
  x ∈ merge_sort R l ↔ x ∈ l.
Proof. by rewrite merge_sort_Permutation. Qed.
End sorting_facts.

Lemma Zeqb_True (x y : Z) : (x =? y) ↔ x = y.
Proof. by rewrite Is_true_true, Z.eqb_eq. Qed.

Lemma strict_Z_le (x y : Z) : strict Z.le x y ↔ x < y.
Proof. unfold strict. lia. Qed.

Lemma StronglySorted_Z_lt (l : list Z) :
  StronglySorted (strict Z.le) l → StronglySorted Z.lt l.
Proof.
  induction 1 as [|x l ? IH Hx]; constructor; [done|].
  eapply Forall_impl; [exact Hx|]. intros y. apply strict_Z_le.
Qed.

(** ** Statements *)

Section statement_facts.
Context `{!sqlite_build}.
Implicit Types (s : store real) (m : gmap Z (row real)).
Implicit Types (e : expense real) (i : Z).

Lemma execute_runs {R} (stmt : db real R) params s :
  Z.of_nat (length params) ≤ SQLITE_MAX_VARIABLE_NUMBER →
  Forall bindable params → execute stmt params s = stmt s.
Proof.
  intros Hlen Hfit. unfold execute. by rewrite !decide_True.
Qed.

(** The statements with a fixed number of parameters. *)
Lemma execute_fixed {R} (stmt : db real R) params s :
  (length params ≤ 6)%nat →
  Forall bindable params → execute stmt params s = stmt s.
Proof.
  intros Hlen. apply execute_runs.
  pose proof fixed_statements_allowed. lia.
Qed.

Lemma execute_overflow {R} (stmt : db real R) params s :
  Z.of_nat (length params) ≤ SQLITE_MAX_VARIABLE_NUMBER →
  ¬ Forall bindable params →
  execute stmt params s = Raised OverflowError.
Proof.
  intros Hlen Hfit. unfold execute.
  by rewrite decide_True, decide_False.
Qed.

Lemma execute_too_many {R} (stmt : db real R) params s :
  SQLITE_MAX_VARIABLE_NUMBER < Z.of_nat (length params) →
  execute stmt params s
  = Raised (OperationalError "too many SQL variables").
Proof.
  intros Hlen. unfold execute. rewrite decide_False; [done|lia].
Qed.

Lemma bindable_ints (ids : list Z) :
  Forall bindable (ParamInt <$> ids) ↔ Forall fits_int64 ids.
Proof. by rewrite Forall_fmap. Qed.

Lemma execute_ints {R} (stmt : db real R) (ids : list Z) s :
  Z.of_nat (length ids) ≤ SQLITE_MAX_VARIABLE_NUMBER →
  Forall fits_int64 ids → execute stmt (ParamInt <$> ids) s = stmt s.
Proof.
  intros Hlen Hfit. apply execute_runs.
  - by rewrite length_fmap.
  - by apply bindable_ints.
Qed.

Lemma execute_id {R} (stmt : db real R) i s :
  fits_int64 i → execute stmt [ParamInt i] s = stmt s.
Proof.
  intros Hfit. apply execute_fixed; [simpl; lia|].
  constructor; [done|constructor].
Qed.

Lemma execute_id_overflow {R} (stmt : db real R) i s :
  ¬ fits_int64 i → execute stmt [ParamInt i] s = Raised OverflowError.
Proof.
  intros Hfit. apply execute_overflow.
  - pose proof fixed_statements_allowed. simpl. lia.
  - intros Hall. apply Forall_cons_1 in Hall as [Hi _]. by apply Hfit.
Qed.

(** Text parameters bind as they are. *)
Lemma execute_texts {R} (stmt : db real R) (texts : list string) s :
  (length texts ≤ 6)%nat → execute stmt (ParamStr <$> texts) s = stmt s.
Proof.
  intros Hlen. apply execute_fixed; [by rewrite length_fmap|].
  apply Forall_fmap, Forall_true. by intros t.
Qed.

Lemma elem_of_selected w s e :
  e ∈ selected w s ↔
    rows s !! id e = Some (columns e) ∧ w (id e) (columns e).
Proof.
  unfold selected. rewrite list_elem_of_fmap. split.
  - intros [[i r] [-> Hin]]. simpl.
    by apply elem_of_map_to_list, map_lookup_filter_Some in Hin.
  - intros [Hrow Hw]. exists (id e, columns e). split; [by destruct e|].
    by apply elem_of_map_to_list, map_lookup_filter_Some.
Qed.

Lemma selected_ids w s :
  id <$> selected w s
  = (map_to_list (filter (λ ir, w ir.1 ir.2) (rows s))).*1.
Proof.
  unfold selected. rewrite <-list_fmap_compose.
  by apply list_fmap_ext; intros ? [??].
Qed.

Lemma NoDup_selected_ids w s : NoDup (id <$> selected w s).
Proof. rewrite selected_ids. apply NoDup_fst_map_to_list. Qed.

Global Instance by_id_total : Total by_id.
Proof. intros e1 e2. unfold by_id. lia. Qed.

Lemma elem_of_order_by_id (es : list (expense real)) e :
  e ∈ order_by_id es ↔ e ∈ es.
Proof. unfold order_by_id. by rewrite merge_sort_Permutation. Qed.

(** ORDER BY id ASC over rows with distinct ids: strictly ascending. *)
Lemma order_by_id_sorted (es : list (expense real)) :
  NoDup (id <$> es) → StronglySorted Z.lt (id <$> order_by_id es).
Proof.
  intros Hnd. apply StronglySorted_Z_lt, Sorted_NoDup_strict.
  - apply _.
  - eapply Sorted_fmap; [|apply (Sorted_merge_sort by_id)]. done.
  - unfold order_by_id. by rewrite merge_sort_Permutation.
Qed.

Lemma delete_where_all s :
  delete_where (λ _, true) s
  = Done (Z.of_nat (size (rows s))) (Store ∅ (seq s)).
Proof.
  unfold delete_where. f_equal.
  - by rewrite map_filter_id.
  - f_equal. apply map_empty. intros i.
    apply map_lookup_filter_None. right. intros r _ Hn. by apply Hn.
Qed.

Lemma selected_empty w i :
  selected w (Store (∅ : gmap Z (row real)) i) = [].
Proof. unfold selected. simpl. by rewrite map_filter_empty, map_to_list_empty. Qed.

(** The number of rows a WHERE clause on the key selects. *)
Lemma selected_count (w : Z → bool) m (X : gset Z) :
  (∀ i, i ∈ X ↔ is_Some (m !! i) ∧ w i) →
  size (filter (λ ir : Z * row real, w ir.1) m) = size X.
Proof.
  intros HX. rewrite <-(size_dom (D:=gset Z)). f_equal.
  apply dom_filter_L. intros i. rewrite HX. unfold is_Some. simpl.
  split; [intros [[r Hr] Hw]|intros (r & Hr & Hw)]; eauto.
Qed.

Lemma lookup_delete_where (w : Z → bool) m i :
  filter (λ ir : Z * row real, ¬ w ir.1) m !! i
  = if w i then None else m !! i.
Proof.
  rewrite map_lookup_filter. simpl.
  by destruct (m !! i) as [r|], (w i).
Qed.

Lemma selected_count_id m i :
  size (filter (λ ir : Z * row real, ir.1 =? i) m)
  = match m !! i with Some _ => 1%nat | None => 0%nat end.
Proof.
  destruct (m !! i) as [r|] eqn:Hrow.
  - rewrite (selected_count (λ k, k =? i) _ {[ i ]}); [apply size_singleton|].
    intros k. rewrite elem_of_singleton, Zeqb_True.
    split; [intros ->; by rewrite Hrow|by intros [_ ->]].
  - rewrite (selected_count (λ k, k =? i) _ ∅); [done|].
    intros k. rewrite Zeqb_True. split; [set_solver|].
    intros [[r Hr] ->]. congruence.
Qed.

Lemma delete_where_id m i :
  filter (λ ir : Z * row real, ¬ (ir.1 =? i)) m = delete i m.
Proof.
  apply map_eq. intros k.
  rewrite (lookup_delete_where (λ k, k =? i)), lookup_delete.
  case_decide as Hk.
  - subst. by rewrite Z.eqb_refl.
  - by rewrite (proj2 (Z.eqb_neq k i)).
Qed.

Lemma matched_id m i k r :
  filter (λ ir : Z * row real, ir.1 =? i) m !! k = Some r
  ↔ k = i ∧ m !! i = Some r.
Proof.
  rewrite map_lookup_filter_Some. simpl. rewrite Zeqb_True.
  split; [by intros [Hk ->]|by intros [-> Hi]].
Qed.

Lemma imap_id (set : row real → option (row real)) m i :
  map_imap (λ k r, Some (if k =? i then default r (set r) else r)) m
  = alter (λ r, default r (set r)) i m.
Proof.
  apply map_eq. intros k. rewrite map_lookup_imap, lookup_alter.
  case_decide as Hk.
  - subst. rewrite Z.eqb_refl. by destruct (m !! k).
  - rewrite (proj2 (Z.eqb_neq k i)) by done. by destruct (m !! k).
Qed.

(** UPDATE ... WHERE id = ? *)
Lemma update_where_id (set : row real → option (row real)) s i :
  update_where set (λ k, k =? i) s
  = match rows s !! i with
    | None => Done 0 s
    | Some r =>
        match set r with
        | Some r' => Done 1 (Store (<[i := r']> (rows s)) (seq s))
        | None => Raised NOT_NULL_amount
        end
    end.
Proof.
  unfold update_where. rewrite imap_id, selected_count_id.
  destruct (rows s !! i) as [r|] eqn:Hrow.
  - destruct (set r) as [r'|] eqn:Hset.
    + rewrite decide_True.
      2:{ intros k r0 [-> Hr0]%matched_id. simplify_eq. by rewrite Hset. }
      do 2 f_equal. apply map_eq. intros k. rewrite lookup_alter.
      case_decide as Hk.
      * subst. by rewrite lookup_insert_eq, Hrow; simpl; rewrite Hset.
      * by rewrite lookup_insert_ne.
    + rewrite decide_False; [done|]. intros Hall.
      destruct (Hall i r) as [r' Hr']; [by apply matched_id|]. congruence.
  - rewrite decide_True.
    2:{ intros k r0 [-> Hr0]%matched_id. congruence. }
    rewrite alter_id by (intros ?; congruence). by destruct s.
Qed.

Lemma selected_id_absent s i :
  rows s !! i = None → selected (λ k _, k =? i) s = [].
Proof.
  intros Hrow. destruct (selected _ s) as [|e es] eqn:Hes; [done|].
  assert (e ∈ selected (λ k _, k =? i) s) as Hin by (rewrite Hes; left).
  apply elem_of_selected in Hin as [Hin Hid%Zeqb_True].
  congruence.
Qed.

End statement_facts.

(** ** The tool functions *)

Section tool_facts.
Context `{!sqlite_build} (sql_sum : list real → real).
Implicit Types (s : store real) (e : expense real) (i : Z).

Lemma list_expenses_eq start_date end_date s :
  list_expenses start_date end_date s
  = Done
      (order_by_id
         (selected (λ _ r, between (date r) start_date end_date) s))
      s.
Proof.
  unfold list_expenses, mbind, db_bind.
  by rewrite (execute_texts _ [start_date; end_date]) by (simpl; lia).
Qed.

Lemma between_le d lo hi :
  between d lo hi ↔ (lo ≤ d)%string ∧ (d ≤ hi)%string.
Proof. unfold between, String.le. by rewrite andb_True. Qed.

(** C7. [delete_expenses] with [delete_all] true removes every row
    whatever [expense_ids] is, reports status [ok] with the number of rows
    there were (0 included), and afterwards [list_expenses] returns the
    empty list for every date range. *)
Theorem delete_all_empties_store (expense_ids : pyval) s :
  ∃ s',
    delete_expenses expense_ids true s
    = Done (Deleted ok (Z.of_nat (size (rows s)))) s'
    ∧ rows s' = ∅
    ∧ ∀ start_date end_date, list_expenses start_date end_date s' = Done [] s'.
Proof.
  exists (Store ∅ (seq s)). split_and!.
  - unfold delete_expenses, mbind, db_bind.
    rewrite (execute_texts _ []) by (simpl; lia).
    by rewrite delete_where_all.
  - done.
  - intros. by rewrite list_expenses_eq, selected_empty.
Qed.

(** C5. [list_expenses] returns, without touching the store, exactly the
    rows whose date lies between [start_date] and [end_date] in the
    lexical order, both ends included, by strictly ascending id; when no
    row matches it returns the empty list. *)
Theorem list_expenses_range (start_date end_date : string) s :
  ∃ es,
    list_expenses start_date end_date s = Done es s
    ∧ (∀ e, e ∈ es ↔
         rows s !! id e = Some (columns e)
         ∧ (start_date ≤ date (columns e))%string
         ∧ (date (columns e) ≤ end_date)%string)
    ∧ StronglySorted Z.lt (id <$> es)
    ∧ ((∀ i r, rows s !! i = Some r →
          ¬ ((start_date ≤ date r)%string ∧ (date r ≤ end_date)%string)) →
       es = []).
Proof.
  eexists. split; [apply list_expenses_eq|].
  assert (∀ e,
    e ∈ order_by_id (selected (λ _ r, between (date r) start_date end_date) s)
    ↔ rows s !! id e = Some (columns e)
      ∧ (start_date ≤ date (columns e))%string
      ∧ (date (columns e) ≤ end_date)%string) as Hin.
  { intros e.
    by rewrite elem_of_order_by_id, elem_of_selected, between_le. }
  split_and!; [done| |].
  - apply order_by_id_sorted, NoDup_selected_ids.
  - intros Hnone.
    destruct (order_by_id _) as [|e es] eqn:Hes; [done|].
    destruct (proj1 (Hin e)) as (Hrow & Hrange); [left|].
    by destruct (Hnone _ _ Hrow).
Qed.

(** *** add_expense *)

Lemma max_rowid_bound (m : gmap Z (row real)) i r :
  m !! i = Some r → i ≤ max_rowid m.
Proof.
  intros Hrow%elem_of_map_to_list. unfold max_rowid.
  assert (i ∈ (map_to_list m).*1) as Hin.
  { apply list_elem_of_fmap. by exists (i, r). }
  clear Hrow. induction Hin as [i l|i j l _ IH]; simpl; lia.
Qed.

Lemma insert_fresh s :
  rows s !! (Z.max (seq s) (max_rowid (rows s)) + 1) = None.
Proof.
  destruct (rows s !! _) as [r|] eqn:Hrow; [|done].
  apply max_rowid_bound in Hrow. lia.
Qed.

Lemma add_expense_params (date : string) (amount' : number)
    (category subcategory note : string) :
  bindable (param_of_number amount') →
  Forall bindable
    [ParamStr date; param_of_number amount'; ParamStr category;
     ParamStr subcategory; ParamStr note].
Proof. intros Hamount. by repeat (constructor; [done|]). Qed.

(** C9, for an amount the store can hold and a sequence of ids that is
    not exhausted.  When the amount is a float other than NaN or an integer
    within 64 bits, and the largest id the table has ever held is below the
    largest 64-bit integer, [add_expense] returns status [ok] with an id
    that no row of the store has; afterwards [list_expenses] over any range
    that contains the supplied date returns a row with that id, and the row
    with that id carries the supplied date, the supplied amount as the REAL
    column holds it, and the supplied category, subcategory and note, the
    last two being the empty string when omitted. *)
Theorem add_then_list (date : string) (amount' : number) (stored : real)
    (category : string) (subcategory note : option string) s :
  bindable (param_of_number amount') →
  real_column amount' = Some stored →
  Z.max (seq s) (max_rowid (rows s)) < INT64_MAX →
  ∃ new_id s',
    add_expense date amount' category subcategory note s
    = Done (Added ok new_id) s'
    ∧ rows s !! new_id = None
    ∧ ∀ start_date end_date,
        (start_date ≤ date)%string → (date ≤ end_date)%string →
        ∃ es,
          list_expenses start_date end_date s' = Done es s'
          ∧ (∃ e, e ∈ es ∧ id e = new_id)
          ∧ ∀ e, e ∈ es → id e = new_id →
              columns e
              = Row date stored category
                  (default "" subcategory) (default "" note).
Proof.
  intros Hbind Hstored Hseq. eexists _, _. split_and!.
  - unfold add_expense, mbind, db_bind.
    rewrite execute_fixed;
      [|simpl; lia|by apply add_expense_params].
    unfold insert. rewrite decide_False by lia. by rewrite Hstored.
  - apply insert_fresh.
  - intros start_date end_date Hlo Hhi. eexists.
    split; [apply list_expenses_eq|]. split.
    + eexists (Expense _ _). split; [|done].
      apply elem_of_order_by_id, elem_of_selected. simpl. split.
      * apply lookup_insert_eq.
      * by apply between_le.
    + intros e [Hrow _]%elem_of_order_by_id%elem_of_selected Hid.
      simpl in Hrow. rewrite Hid, lookup_insert_eq in Hrow. congruence.
Qed.

(** *** delete_expense *)

(** C8, within the range of ids the database can hold.  When
    [expense_id] coerces to an integer that fits SQLite's 64-bit INTEGER,
    [delete_expense] returns [not_found] with 0 deleted and leaves the
    store as it is if no row has that id, and returns [ok] with 1 deleted
    after removing that row and no other if one has. *)
Theorem delete_expense_by_id (expense_id : pyval) i s :
  py_int expense_id = Coerced i →
  fits_int64 i →
  delete_expense expense_id s
  = match rows s !! i with
    | None => Done (Deleted not_found 0) s
    | Some _ => Done (Deleted ok 1) (Store (delete i (rows s)) (seq s))
    end.
Proof.
  intros Hint Hfit. unfold delete_expense. rewrite Hint.
  unfold mbind, db_bind. rewrite execute_id by done.
  unfold delete_where. rewrite selected_count_id, delete_where_id.
  destruct (rows s !! i) as [r|] eqn:Hrow; simpl; [done|].
  rewrite delete_id by done. by destruct s.
Qed.

(** *** update_expense *)

Lemma length_set_clause (date' : option string) (amount' : option number)
    (category' subcategory' note' : option string) :
  (length (set_clause date' amount' category' subcategory' note') ≤ 5)%nat.
Proof.
  destruct date', amount', category', subcategory', note'; simpl; lia.
Qed.

(** The parameters of the SET clause bind when an int amount fits. *)
Lemma set_clause_bindable (date' : option string) (amount' : option number)
    (category' subcategory' note' : option string) :
  Forall bindable
    (parameter <$> set_clause date' amount' category' subcategory' note')
  ↔ ∀ n, amount' = Some (NumInt n) → fits_int64 n.
Proof.
  split.
  - intros Hall n ->.
    apply (proj1 (Forall_forall _ _) Hall (ParamInt n)).
    apply list_elem_of_fmap. exists (SetAmount (NumInt n)). split; [done|].
    destruct date', category', subcategory', note'; simpl;
      rewrite ?elem_of_cons; tauto.
  - intros Hfit.
    destruct date', amount' as [[n'|x']|], category', subcategory', note';
      simpl; repeat first [apply Forall_nil_2 | apply Forall_cons_2];
      simpl; try done; by apply Hfit.
Qed.

Lemma update_expense_eq (expense_id : pyval) i
    (date' : option string) (amount' : option number)
    (category' subcategory' note' : option string) s :
  let fields := set_clause date' amount' category' subcategory' note' in
  py_int expense_id = Coerced i →
  fits_int64 i →
  fields ≠ [] →
  update_expense expense_id date' amount' category' subcategory' note' s
  = if decide (Forall bindable (parameter <$> fields)) then
      match rows s !! i with
      | None => Done (Updated not_found 0) s
      | Some r =>
          match assign_all fields r with
          | Some r' =>
              Done (Updated ok 1) (Store (<[i := r']> (rows s)) (seq s))
          | None => Raised NOT_NULL_amount
          end
      end
    else Raised OverflowError.
Proof.
  intros fields Hint Hfit Hfields. unfold update_expense. rewrite Hint.
  fold fields. pose proof (length_set_clause date' amount' category'
                             subcategory' note') as Hlen.
  fold fields in Hlen.
  destruct fields as [|a fields'] eqn:Heq; [done|].
  unfold mbind, db_bind. case_decide as Hbind.
  - rewrite execute_fixed.
    2:{ rewrite length_app, length_fmap. simpl in *. lia. }
    2:{ apply Forall_app. split; [done|]. by apply Forall_singleton. }
    rewrite update_where_id.
    destruct (rows s !! i) as [r|] eqn:Hrow.
    + by destruct (assign_all _ r).
    + simpl. rewrite execute_id by done.
      unfold select. by rewrite selected_id_absent.
  - rewrite execute_overflow; [done| |].
    + pose proof fixed_statements_allowed.
      rewrite length_app, length_fmap. simpl in *. lia.
    + intros [Hall _]%Forall_app. by apply Hbind.
Qed.

(** An assignment of the value a column already has changes nothing. *)
Lemma assign_identical (r : row real)
    (date' : option string) (amount' : option number)
    (category' subcategory' note' : option string) :
  (∀ v, date' = Some v → v = date r) →
  (∀ v, amount' = Some v → real_column v = Some (amount r)) →
  (∀ v, category' = Some v → v = category r) →
  (∀ v, subcategory' = Some v → v = subcategory r) →
  (∀ v, note' = Some v → v = note r) →
  assign_all (set_clause date' amount' category' subcategory' note') r
  = Some r.
Proof.
  intros Hd Ha Hc Hs Hn. unfold set_clause, assign_all.
  destruct date' as [d|]; [rewrite (Hd d eq_refl)|];
    (destruct amount' as [a|]; [pose proof (Ha a eq_refl) as Hstored|]);
    (destruct category' as [c|]; [rewrite (Hc c eq_refl)|]);
    (destruct subcategory' as [sc|]; [rewrite (Hs sc eq_refl)|]);
    (destruct note' as [n|]; [rewrite (Hn n eq_refl)|]);
    simpl; rewrite ?Hstored; simpl; by destruct r.
Qed.

(** C1, what the code does.  When the id exists and every supplied field
    equals the stored value (for the amount: it is stored as the value the
    row has, and fits 64 bits when it is an int), the UPDATE statement
    still counts the row, so [update_expense] returns status [ok] with 1
    updated (the store being unchanged), not [no_change] with 0. *)
Theorem update_expense_identical_values (expense_id : pyval) i
    (r : row real) (date' : option string) (amount' : option number)
    (category' subcategory' note' : option string) s :
  py_int expense_id = Coerced i →
  fits_int64 i →
  rows s !! i = Some r →
  set_clause date' amount' category' subcategory' note' ≠ [] →
  (∀ v, date' = Some v → v = date r) →
  (∀ v, amount' = Some v → real_column v = Some (amount r)) →
  (∀ n, amount' = Some (NumInt n) → fits_int64 n) →
  (∀ v, category' = Some v → v = category r) →
  (∀ v, subcategory' = Some v → v = subcategory r) →
  (∀ v, note' = Some v → v = note r) →
  update_expense expense_id date' amount' category' subcategory' note' s
  = Done (Updated ok 1) s.
Proof.
  intros Hint Hfit Hrow Hfields Hd Ha Hbind Hc Hs Hn.
  rewrite (update_expense_eq _ i) by done.
  rewrite decide_True by (by apply set_clause_bindable).
  rewrite Hrow, assign_identical by done.
  rewrite insert_id by done. by destruct s.
Qed.

(** The status [not_found] is returned only for an id that no row has, and
    [no_change] is never returned. *)
Lemma update_expense_status (expense_id : pyval) i
    (date' : option string) (amount' : option number)
    (category' subcategory' note' : option string) s r s' :
  py_int expense_id = Coerced i →
  fits_int64 i →
  update_expense expense_id date' amount' category' subcategory' note' s
  = Done r s' →
  (status_of r = not_found → rows s !! i = None)
  ∧ status_of r ≠ no_change.
Proof.
  intros Hint Hfit.
  destruct (set_clause date' amount' category' subcategory' note')
    as [|a fields] eqn:Hfields.
  - unfold update_expense. rewrite Hint, Hfields.
    intros [= <- <-]. done.
  - rewrite (update_expense_eq _ i) by (done || by rewrite Hfields).
    rewrite Hfields. case_decide; [|done].
    destruct (rows s !! i) as [r0|]; [destruct (assign_all _ r0)|];
      intros [= <- <-]; done.
Qed.

(** *** delete_expenses *)

(** The coercion loop keeps the order of the items on both sides. *)
Lemma coerce_eq (raw : list pyval) ids invalid :
  Forall (λ item, py_int item ≠ Overflows) raw →
  coerce raw ids invalid
  = Some (ids ++ coercibles raw,
          invalid ++ filter (λ item, py_int item = Refused) raw).
Proof.
  intros Hraw. revert ids invalid.
  induction Hraw as [|item raw Hitem _ IH]; intros ids invalid; simpl.
  { by rewrite !app_nil_r. }
  unfold coercibles. csimpl.
  destruct (py_int item) as [n| |] eqn:Hint; [| |done]; rewrite IH.
  - rewrite filter_cons_False by congruence. by rewrite <-app_assoc.
  - rewrite filter_cons_True by done. by rewrite <-app_assoc.
Qed.

(** An [int(item)] that overflows ends the loop. *)
Lemma coerce_overflows (raw : list pyval) ids invalid :
  Exists (λ item, py_int item = Overflows) raw →
  coerce raw ids invalid = None.
Proof.
  intros Hraw. revert ids invalid.
  induction Hraw as [item raw Hitem|item raw _ IH]; intros ids invalid;
    simpl.
  - by rewrite Hitem.
  - by destruct (py_int item).
Qed.

Lemma all_valid_no_overflow (raw : list pyval) (ids : list Z) :
  Forall2 (λ item n, py_int item = Coerced n) raw ids →
  Forall (λ item, py_int item ≠ Overflows) raw.
Proof. induction 1; constructor; (done || congruence). Qed.

Lemma omap_all_valid (raw : list pyval) (ids : list Z) :
  Forall2 (λ item n, py_int item = Coerced n) raw ids →
  coercibles raw = ids
  ∧ filter (λ item, py_int item = Refused) raw = [].
Proof.
  unfold coercibles.
  induction 1 as [|item n raw ids Hint _ [IH1 IH2]]; [done|].
  csimpl. rewrite Hint, IH1. simpl.
  by rewrite filter_cons_False by congruence.
Qed.

Lemma coerce_all_valid (raw : list pyval) (ids : list Z) :
  Forall2 (λ item n, py_int item = Coerced n) raw ids →
  coerce raw [] [] = Some (ids, []).
Proof.
  intros Hraw. rewrite coerce_eq by (by eapply all_valid_no_overflow).
  apply omap_all_valid in Hraw as [Hids Hinvalid].
  by rewrite Hids, Hinvalid.
Qed.

Lemma coerce_ints (ids : list Z) :
  coerce (PyInt <$> ids) [] [] = Some (ids, []).
Proof.
  apply coerce_all_valid. induction ids; constructor; done.
Qed.

(** Past the test for [None], only the outcome of the coercion loop
    matters. *)
Lemma delete_expenses_coerce (v1 v2 : pyval) delete_all s :
  v1 ≠ PyNone → v2 ≠ PyNone →
  coerce (raw_ids v1) [] [] = coerce (raw_ids v2) [] [] →
  delete_expenses v1 delete_all s = delete_expenses v2 delete_all s.
Proof.
  intros Hv1 Hv2 Hraw. destruct delete_all; [done|].
  unfold delete_expenses.
  by destruct v1, v2; try done; rewrite Hraw.
Qed.

(** The two statements of a bulk delete, on ids that bind. *)
Lemma delete_expenses_eq (expense_ids : pyval) (ids : list Z) s :
  let in_ids := λ i : Z, bool_decide (i ∈ ids) in
  let deleted := Z.of_nat (size (filter (λ ir, in_ids ir.1) (rows s))) in
  let existing : gset Z := list_to_set (id <$> selected (λ i _, in_ids i) s) in
  expense_ids ≠ PyNone →
  coerce (raw_ids expense_ids) [] [] = Some (ids, []) →
  ids ≠ [] →
  Z.of_nat (length ids) ≤ SQLITE_MAX_VARIABLE_NUMBER →
  Forall fits_int64 ids →
  delete_expenses expense_ids false s
  = Done
      (DeletedMany (if 0 <? deleted then ok else not_found) deleted
         (sorted (list_to_set ids ∖ existing)))
      (Store (filter (λ ir, ¬ in_ids ir.1) (rows s)) (seq s)).
Proof.
  intros in_ids deleted existing Hv Hraw Hids Hlen Hfit.
  rewrite (delete_expenses_coerce _ (PyList (PyInt <$> ids)));
    [|done|done|].
  2:{ rewrite Hraw. symmetry. apply coerce_ints. }
  unfold delete_expenses.
  change (raw_ids (PyList (PyInt <$> ids))) with (PyInt <$> ids).
  rewrite coerce_ints.
  destruct ids as [|n ids']; [done|].
  unfold mbind, db_bind.
  rewrite execute_ints by done. unfold select.
  by rewrite execute_ints by done.
Qed.

(** More ids than a statement may have parameters: the SELECT is not
    prepared. *)
Lemma delete_expenses_too_many (expense_ids : pyval) (ids : list Z) s :
  expense_ids ≠ PyNone →
  coerce (raw_ids expense_ids) [] [] = Some (ids, []) →
  SQLITE_MAX_VARIABLE_NUMBER < Z.of_nat (length ids) →
  delete_expenses expense_ids false s
  = Raised (OperationalError "too many SQL variables").
Proof.
  intros Hv Hraw Hlen.
  rewrite (delete_expenses_coerce _ (PyList (PyInt <$> ids)));
    [|done|done|].
  2:{ rewrite Hraw. symmetry. apply coerce_ints. }
  unfold delete_expenses.
  change (raw_ids (PyList (PyInt <$> ids))) with (PyInt <$> ids).
  rewrite coerce_ints.
  destruct ids as [|n ids'].
  { pose proof fixed_statements_allowed. simpl in Hlen. lia. }
  unfold mbind, db_bind. rewrite execute_too_many; [done|].
  by rewrite length_fmap.
Qed.

Lemma elem_of_sorted (X : gset Z) i : i ∈ sorted X ↔ i ∈ X.
Proof. unfold sorted. by rewrite elem_of_merge_sort, elem_of_elements. Qed.

Lemma sorted_ascending (X : gset Z) : StronglySorted Z.lt (sorted X).
Proof.
  apply StronglySorted_Z_lt, merge_sort_strict; [apply _..|].
  apply NoDup_elements.
Qed.

(** C2, within what a statement can bind.  When [delete_all] is false,
    every item of [expense_ids] coerces to an integer, there is at least
    one and no more than a statement may have parameters, and all fit
    SQLite's 64-bit INTEGER, [delete_expenses] removes the rows whose id is requested and no other,
    reports how many requested ids had a row, and lists in ascending order
    without repetition the requested ids that had none.  The status is
    [not_found] exactly when nothing was deleted, and [ok] exactly when
    some requested id had a row. *)
Theorem delete_expenses_by_ids (expense_ids : pyval) (ids : list Z) s :
  expense_ids ≠ PyNone →
  Forall2 (λ item n, py_int item = Coerced n) (raw_ids expense_ids) ids →
  ids ≠ [] →
  Z.of_nat (length ids) ≤ SQLITE_MAX_VARIABLE_NUMBER →
  Forall fits_int64 ids →
  ∃ st deleted missing s',
    delete_expenses expense_ids false s
    = Done (DeletedMany st deleted missing) s'
    ∧ (∀ i, rows s' !! i = if bool_decide (i ∈ ids) then None
                           else rows s !! i)
    ∧ deleted
      = Z.of_nat (size (dom (rows s) ∩ list_to_set ids : gset Z))
    ∧ StronglySorted Z.lt missing
    ∧ (∀ i, i ∈ missing ↔ i ∈ ids ∧ rows s !! i = None)
    ∧ (st = not_found ↔ deleted = 0)
    ∧ (st = ok ↔ ∃ i, i ∈ ids ∧ is_Some (rows s !! i)).
Proof.
  intros Hv Hraw%coerce_all_valid Hids Hlen Hfit.
  eexists _, _, _, _. split; [by apply delete_expenses_eq|].
  pose (in_ids := λ i : Z, bool_decide (i ∈ ids)).
  assert (size (filter (λ ir : Z * row real, in_ids ir.1) (rows s))
          = size (dom (rows s) ∩ list_to_set ids : gset Z)) as Hsize.
  { apply (selected_count in_ids). intros i. unfold in_ids.
    rewrite elem_of_intersection, elem_of_dom, elem_of_list_to_set.
    by rewrite bool_decide_spec. }
  split_and!.
  - intros i. simpl.
    apply (lookup_delete_where in_ids).
  - by rewrite <-Hsize.
  - apply sorted_ascending.
  - intros i.
    rewrite elem_of_sorted, elem_of_difference, !elem_of_list_to_set.
    rewrite list_elem_of_fmap. split.
    + intros [Hin Hnot]. split; [done|].
      destruct (rows s !! i) as [r|] eqn:Hrow; [|done].
      destruct Hnot. exists (Expense i r). split; [done|].
      apply elem_of_selected. simpl. by rewrite bool_decide_spec.
    + intros [Hin Hrow]. split; [done|].
      intros (e & -> & [He _]%elem_of_selected). congruence.
  - change (size (filter _ (rows s)))
      with (size (filter (λ ir : Z * row real, in_ids ir.1) (rows s))).
    destruct (Z.ltb_spec 0
                (Z.of_nat (size (filter (λ ir : Z * row real, in_ids ir.1)
                                   (rows s))))); split; (done || lia).
  - change (size (filter _ (rows s)))
      with (size (filter (λ ir : Z * row real, in_ids ir.1) (rows s))).
    assert ((∃ i, i ∈ ids ∧ is_Some (rows s !! i))
            ↔ size (dom (rows s) ∩ list_to_set ids : gset Z) ≠ 0%nat)
      as ->.
    { rewrite size_non_empty_iff. split.
      - intros (i & Hin & Hrow) Hempty.
        apply (not_elem_of_empty (C:=gset Z) i), Hempty.
        by rewrite elem_of_intersection, elem_of_dom, elem_of_list_to_set.
      - intros (i & Hi)%set_choose. exists i.
        rewrite elem_of_intersection, elem_of_dom,
          elem_of_list_to_set in Hi.
        by destruct Hi. }
    rewrite <-Hsize.
    destruct (Z.ltb_spec 0
                (Z.of_nat (size (filter (λ ir : Z * row real, in_ids ir.1)
                                   (rows s))))); split; (done || lia).
Qed.

(** *** expense_ids given as a string *)

Lemma truthy_nonempty (t : string) : Str.truthy t ↔ t ≠ "".
Proof. by destruct t. Qed.

Lemma filter_flush (cur : string) :
  filter Str.truthy (Str.flush cur) = filter Str.truthy [cur].
Proof. by destruct cur. Qed.

(** What the code does to a string (replace the commas, split on white
    space, drop the empty pieces) is the tokenisation of the
    specification. *)
Lemma split_replace_pieces (cur text : string) :
  filter Str.truthy (Str.split_from cur (Str.replace "," " " text))
  = filter Str.truthy (pieces cur text).
Proof.
  revert cur. induction text as [|c text IH]; intros cur; simpl.
  { apply filter_flush. }
  unfold is_separator. destruct (Ascii.eqb c ",") eqn:Hcomma; simpl.
  - by rewrite filter_app, filter_flush, IH, <-filter_app.
  - destruct (Str.isspace c); [|apply IH].
    by rewrite filter_app, filter_flush, IH, <-filter_app.
Qed.

Lemma raw_ids_string (text : string) :
  raw_ids (PyStr text) = PyStr <$> tokens text.
Proof.
  unfold raw_ids, tokens, Str.split. rewrite split_replace_pieces.
  f_equal. apply list_filter_iff, truthy_nonempty.
Qed.

(** C3. If the tokens of a string (its pieces between commas and white
    space, the empty ones dropped) coerce to the integers [ids], then
    [delete_expenses] on the string returns what it returns on the list
    [ids] and leaves the same store. *)
Theorem delete_expenses_string_as_list (text : string) (ids : list Z)
    (delete_all : bool) s :
  Forall2 (λ token n, py_int (PyStr token) = Coerced n) (tokens text) ids →
  delete_expenses (PyStr text) delete_all s
  = delete_expenses (PyList (PyInt <$> ids)) delete_all s.
Proof.
  intros Htokens. apply delete_expenses_coerce; [done..|].
  rewrite (coerce_all_valid _ ids), (coerce_all_valid _ ids); [done| |].
  - simpl. by apply Forall2_fmap_l, Forall_Forall2_diag, Forall_true.
  - rewrite raw_ids_string. by apply Forall2_fmap_l.
Qed.

(** *** Validation failures *)

(** X22. A call that fails validation (an [expense_id] that does not
    coerce to an integer in a delete or an update; a bulk delete without
    [delete_all] whose [expense_ids] is absent, has an item that does not
    coerce, or yields no id; an update without any field) and in which no
    [int(...)] overflows returns a dict with status [error] and a message,
    and the store is what it was. *)
Lemma validation_failure_reported (c : call) s :
  validation_failure c →
  Forall (λ v, py_int v ≠ Overflows) (coerced_values c) →
  ∃ r message,
    run c s = Done r s ∧ status_of r = error ∧ message_of r = Some message.
Proof.
  destruct 1 as [v Hint|v d a c sc n Hint| |v item Hv Hitem Hint
                |v Hv Hnone|v]; simpl; intros Hno.
  - rewrite Forall_singleton in Hno. unfold delete_expense.
    destruct (py_int v) as [i| |] eqn:Hv; [|by eexists _, _|done].
    destruct Hint. by exists i.
  - rewrite Forall_singleton in Hno. unfold update_expense.
    destruct (py_int v) as [i| |] eqn:Hv; [|by eexists _, _|done].
    destruct Hint. by exists i.
  - by eexists _, _.
  - assert (Forall (λ v, py_int v ≠ Overflows) (raw_ids v)) as Hraw
      by (by destruct v).
    unfold delete_expenses. rewrite coerce_eq by done. simpl.
    destruct (filter _ (raw_ids v)) as [|bad invalid] eqn:Hinvalid.
    { assert (item ∈ filter (λ item, py_int item = Refused) (raw_ids v))
        as Hin.
      { apply list_elem_of_filter. split; [|done].
        pose proof (proj1 (Forall_forall _ _) Hraw item Hitem) as Hover.
        destruct (py_int item) as [i| |] eqn:Hi; [|done|done].
        destruct Hint. by exists i. }
      rewrite Hinvalid in Hin. by apply elem_of_nil in Hin. }
    destruct v; try done; by eexists _, _.
  - assert (Forall (λ v, py_int v ≠ Overflows) (raw_ids v)) as Hraw
      by (by destruct v).
    unfold delete_expenses. rewrite coerce_eq, Hnone by done. simpl.
    destruct (filter _ (raw_ids v)); destruct v; try done; by eexists _, _.
  - rewrite Forall_singleton in Hno. unfold update_expense.
    destruct (py_int v); [by eexists _, _..|done].
Qed.

(** C4, what the code does.  An [expense_id], or an item of
    [expense_ids], on which [int(...)] raises [OverflowError] (an infinite
    float) does not coerce to an integer, so the call fails validation; yet
    the delete, the update and the bulk delete raise that error instead of
    returning a dict with status [error]. *)
Theorem coercion_overflow_uncaught (v : pyval) s :
  py_int v = Overflows →
  (validation_failure (Delete v)
   ∧ delete_expense v s = Raised OverflowError)
  ∧ (∀ date' amount' category' subcategory' note',
       validation_failure
         (Update v date' amount' category' subcategory' note')
       ∧ update_expense v date' amount' category' subcategory' note' s
         = Raised OverflowError)
  ∧ (∀ items, v ∈ items →
       validation_failure (DeleteMany (PyList items) false)
       ∧ delete_expenses (PyList items) false s = Raised OverflowError).
Proof.
  intros Hv.
  assert (¬ coercible v) as Hno by (intros [n Hn]; congruence).
  split_and!.
  - by constructor.
  - unfold delete_expense. by rewrite Hv.
  - intros date' amount' category' subcategory' note'. split.
    + by constructor.
    + unfold update_expense. by rewrite Hv.
  - intros items Hin. split.
    + by apply (token_malformed _ v).
    + unfold delete_expenses. simpl. rewrite coerce_overflows; [done|].
      apply Exists_exists. by exists v.
Qed.

(** *** summarize *)

Lemma summarize_eq (start_date end_date : string)
    (category_filter : option string) s :
  summarize sql_sum start_date end_date category_filter s
  = Done
      (group_by_category sql_sum
         (selected
            (λ _ r, where_clause start_date end_date category_filter r) s))
      s.
Proof.
  unfold summarize, mbind, db_bind. rewrite execute_fixed; [done|..];
    destruct category_filter as [[|a c]|]; simpl; try lia;
    by repeat first [apply Forall_nil_2 | apply Forall_cons_2].
Qed.

Lemma where_clause_in_scope (start_date end_date : string)
    (category_filter : option string) (r : row real) :
  where_clause start_date end_date category_filter r
  ↔ in_scope start_date end_date category_filter r.
Proof.
  unfold where_clause, in_scope.
  destruct category_filter as [[|a c]|]; simpl;
    rewrite ?andb_True, between_le; unfold category_is;
    rewrite ?Is_true_true, ?String.eqb_eq.
  - split; [intros [??]|by intros (?&?&_)].
    split_and!; [done..|]. by intros ? [= <-].
  - split; [intros [[??] ?]|intros (?&?&Hc)].
    + split_and!; [done..|]. by intros ? [= <-] _.
    + split_and!; [done..|]. by apply Hc.
  - split; [intros [??]|by intros (?&?&_)].
    by split_and!.
Qed.


Lemma group_by_category_categories (es : list (expense real)) :
  summary_category <$> group_by_category sql_sum es
  = merge_sort String.le
      (remove_dups (category <$> (columns <$> es))).
Proof.
  unfold group_by_category. rewrite <-list_fmap_compose.
  rewrite <-(list_fmap_id (merge_sort _ _)) at 2.
  by apply list_fmap_ext.
Qed.


(** C10. [summarize] with the empty string as category returns what it
    returns without a category: the empty string does not filter. *)
Theorem summarize_empty_category (start_date end_date : string) s :
  summarize sql_sum start_date end_date (Some "") s
  = summarize sql_sum start_date end_date None s.
Proof. done. Qed.

End tool_facts.

(** * The sample ledger *)

Section sample_calls.
Existing Instance default_build.

Example add_to_empty_ledger :
  add_expense "2024-01-05" (NumInt 4250) "Food" (Some "Lunch") (Some "Deli")
    empty_ledger
  = Done (Added ok 1) ledger.
Proof. vm_compute. reflexivity. Qed.

Example list_ledger :
  list_expenses "2024-01-01" "2024-01-31" ledger
  = Done [Expense 1 lunch] ledger.
Proof. vm_compute. reflexivity. Qed.

Example delete_one_of_two :
  delete_expenses (PyList [PyInt 1; PyInt 99]) false ledger
  = Done (DeletedMany ok 1 [99]) (Store ∅ 1).
Proof. vm_compute. reflexivity. Qed.

Example delete_from_string :
  delete_expenses (PyStr "1, 2 3") false ledger
  = Done (DeletedMany ok 1 [2; 3]) (Store ∅ 1).
Proof. vm_compute. reflexivity. Qed.


Example to_int_samples :
  Str.to_int <$>
    [" 5 "; "1_000"; "_1"; "1_"; "1__0"; "+5"; "-0"; "007"; "0x10"; "";
     "+"; "1 2"; "+ 5"; "--5"; "0_0"; "-12"]
  = [Some 5; Some 1000; None; None; None; Some 5; Some 0; Some 7; None; None;
     None; None; None; None; Some 0; Some (-12)].
Proof. vm_compute. reflexivity. Qed.

(** int(3.7), int(-3.7), int(4250.0), int(0.5), int(-0.0), int(nan),
    int(inf), int(-inf). *)
Example float_to_int_samples :
  float_to_int <$>
    [S754_finite false 8331659310635418 (-51);
     S754_finite true 8331659310635418 (-51);
     S754_finite false 4672924418048000 (-40);
     S754_finite false 4503599627370496 (-53);
     S754_zero true; S754_nan; S754_infinity false; S754_infinity true]
  = [Coerced 3; Coerced (-3); Coerced 4250; Coerced 0; Coerced 0; Refused;
     Overflows; Overflows].
Proof. vm_compute. reflexivity. Qed.

(** 4250 as a double, and the two doubles next to 2^53 + 2. *)
Example real_of_int_samples :
  real_of_int <$> [4250; 0; 2 ^ 53 + 1; 2 ^ 53 + 3]
  = [S754_finite false 4672924418048000 (-40); S754_zero false;
     S754_finite false 4503599627370496 1;
     S754_finite false 4503599627370498 1].
Proof. vm_compute. reflexivity. Qed.

Lemma fits_int64_1 : fits_int64 1.
Proof. by vm_compute. Defined.

Lemma fits_int64_99 : fits_int64 99.
Proof. by vm_compute. Defined.

Lemma fits_int64_4250 : fits_int64 4250.
Proof. by vm_compute. Defined.

Lemma two_ids_allowed :
  Z.of_nat (length [1; 99]) ≤ SQLITE_MAX_VARIABLE_NUMBER.
Proof. by vm_compute. Defined.

Lemma ledger_not_exhausted :
  Z.max (seq ledger) (max_rowid (rows ledger)) < INT64_MAX.
Proof. by vm_compute. Defined.

Lemma empty_ledger_not_exhausted :
  Z.max (seq empty_ledger) (max_rowid (rows empty_ledger)) < INT64_MAX.
Proof. by vm_compute. Defined.

(** C8, the claim as stated fails: 2^63 is an integer that no row has as
    id, yet [delete_expense] does not return [not_found]; the sqlite3 module
    raises [OverflowError] before the statement runs. *)
Lemma delete_expense_unbindable_id :
  py_int (PyInt (2 ^ 63)) = Coerced (2 ^ 63)
  ∧ rows ledger !! (2 ^ 63) = None
  ∧ delete_expense (PyInt (2 ^ 63)) ledger = Raised OverflowError
  ∧ delete_expense (PyInt (2 ^ 63)) ledger
    ≠ Done (Deleted not_found 0) ledger.
Proof. split_and!; by vm_compute. Qed.

Lemma ones_coerce (n : nat) :
  Forall2 (λ item i, py_int item = Coerced i)
    (replicate n (PyInt 1)) (replicate n 1).
Proof. induction n; constructor; done. Qed.

(** C2, the claim as stated fails, in two ways.  With [1, 2**63] both items
    coerce to integers and id 1 exists, yet binding 2^63 raises
    [OverflowError]: nothing is deleted and no dict is returned.  With id 1
    repeated once more than a statement may have parameters, every item
    coerces and id 1 exists, yet preparing the SELECT raises
    [OperationalError]. *)
Lemma delete_expenses_unbindable_id :
  let expense_ids := PyList [PyInt 1; PyInt (2 ^ 63)] in
  let repeated :=
    PyList (replicate (Z.to_nat (SQLITE_MAX_VARIABLE_NUMBER + 1)) (PyInt 1))
  in
  (Forall2 (λ item n, py_int item = Coerced n) (raw_ids expense_ids)
     [1; 2 ^ 63]
   ∧ is_Some (rows ledger !! 1)
   ∧ delete_expenses expense_ids false ledger = Raised OverflowError
   ∧ delete_expenses expense_ids false ledger
     ≠ Done (DeletedMany ok 1 [2 ^ 63]) (Store ∅ 1)
   ∧ store_after (delete_expenses expense_ids false ledger) ledger = ledger)
  ∧ (Forall (λ item, py_int item = Coerced 1) (raw_ids repeated)
     ∧ delete_expenses repeated false ledger
       = Raised (OperationalError "too many SQL variables")).
Proof.
  intros expense_ids repeated.
  set (n := Z.to_nat (SQLITE_MAX_VARIABLE_NUMBER + 1)) in repeated.
  assert (SQLITE_MAX_VARIABLE_NUMBER < Z.of_nat n) as Hn.
  { unfold n. rewrite Z2Nat.id; by vm_compute. }
  clearbody n. split; split_and!.
  - by repeat constructor.
  - by exists lunch.
  - by vm_compute.
  - by vm_compute.
  - by vm_compute.
  - unfold repeated, raw_ids. by apply Forall_replicate.
  - apply (delete_expenses_too_many _ (replicate n 1)).
    + discriminate.
    + apply coerce_all_valid, ones_coerce.
    + by rewrite length_replicate.
Qed.

(** C9, the claim as stated fails, in three ways.  An amount that is NaN
    is bound as NULL, which the NOT NULL amount column refuses: the call
    raises and adds nothing.  An int amount is stored as the nearest
    double: 2^53 + 1 is listed back as 2^53.  And when the largest id ever
    assigned is the largest 64-bit integer, no id is left. *)
Lemma add_expense_unstorable_amount :
  (add_expense "2024-01-06" (NumFloat S754_nan) "Food" None None ledger
   = Raised (IntegrityError "NOT NULL constraint failed: expenses.amount"))
  ∧ (∃ s' r,
       add_expense "2024-01-06" (NumInt (2 ^ 53 + 1)) "Food" None None ledger
       = Done (Added ok 2) s'
       ∧ list_expenses "2024-01-06" "2024-01-06" s' = Done [Expense 2 r] s'
       ∧ float_to_int (amount r) = Coerced (2 ^ 53))
  ∧ (add_expense "2024-01-06" (NumInt 5) "Food" None None
       (Store ∅ INT64_MAX)
     = Raised (OperationalError "database or disk is full")).
Proof.
  split_and!.
  - by vm_compute.
  - eexists _, _. split_and!; by vm_compute.
  - by vm_compute.
Qed.

(** * Instances of the theorems on the sample ledger *)

(** C1 at update_expense(1, "2024-01-05", 4250, "Food", "Lunch", "Deli") on
    the sample ledger: every field is the stored one, the answer is
    {"status": "ok", "updated": 1}. *)
Lemma update_expense_identical_values_witness :
  py_int (PyInt 1) = Coerced 1
  ∧ fits_int64 1
  ∧ rows ledger !! 1 = Some lunch
  ∧ real_column (NumInt 4250) = Some (amount lunch)
  ∧ update_expense (PyInt 1) (Some "2024-01-05") (Some (NumInt 4250))
      (Some "Food") (Some "Lunch") (Some "Deli") ledger
    = Done (Updated ok 1) ledger.
Proof.
  split_and!; [reflexivity|exact fits_int64_1|reflexivity|reflexivity|].
  apply (update_expense_identical_values (PyInt 1) 1 lunch).
  - reflexivity.
  - exact fits_int64_1.
  - reflexivity.
  - discriminate.
  - intros v [= <-]. reflexivity.
  - intros v [= <-]. reflexivity.
  - intros n [= <-]. exact fits_int64_4250.
  - intros v [= <-]. reflexivity.
  - intros v [= <-]. reflexivity.
  - intros v [= <-]. reflexivity.
Defined.

(** C8 at delete_expense(1) on the sample ledger. *)
Lemma delete_expense_by_id_witness :
  py_int (PyInt 1) = Coerced 1
  ∧ fits_int64 1
  ∧ delete_expense (PyInt 1) ledger
    = Done (Deleted ok 1) (Store (delete 1 (rows ledger)) (seq ledger)).
Proof.
  split_and!; [reflexivity|exact fits_int64_1|].
  exact (delete_expense_by_id (PyInt 1) 1 ledger eq_refl fits_int64_1).
Defined.

(** C2 at delete_expenses([1, 99]) on the sample ledger. *)
Lemma delete_expenses_by_ids_witness :
  ∃ st deleted missing s',
    delete_expenses (PyList [PyInt 1; PyInt 99]) false ledger
    = Done (DeletedMany st deleted missing) s'
    ∧ (st = ok ↔ ∃ i, i ∈ [1; 99] ∧ is_Some (rows ledger !! i))
    ∧ ∀ i, i ∈ missing ↔ i ∈ [1; 99] ∧ rows ledger !! i = None.
Proof.
  destruct (delete_expenses_by_ids (PyList [PyInt 1; PyInt 99]) [1; 99] ledger)
    as (st & deleted & missing & s' & Hcall & _ & _ & _ & Hmissing & _ & Hok).
  - discriminate.
  - repeat constructor.
  - discriminate.
  - exact two_ids_allowed.
  - constructor; [exact fits_int64_1|].
    constructor; [exact fits_int64_99|]. constructor.
  - exists st, deleted, missing, s'. split_and!; assumption.
Defined.

(** C3 at the string "1, 2 3" against the list [1, 2, 3]. *)
Lemma delete_expenses_string_as_list_witness :
  tokens "1, 2 3" = ["1"; "2"; "3"]
  ∧ delete_expenses (PyStr "1, 2 3") false ledger
    = delete_expenses (PyList [PyInt 1; PyInt 2; PyInt 3]) false ledger.
Proof.
  split; [reflexivity|].
  apply (delete_expenses_string_as_list "1, 2 3" [1; 2; 3] false ledger).
  repeat constructor.
Defined.

(** C4 at an infinite float, on the sample ledger: delete_expense(inf),
    update_expense(inf, note="x") and delete_expenses([1, inf]) raise. *)
Lemma coercion_overflow_uncaught_witness :
  let inf := PyFloat (S754_infinity false) in
  py_int inf = Overflows
  ∧ delete_expense inf ledger = Raised OverflowError
  ∧ update_expense inf None None None None (Some "x") ledger
    = Raised OverflowError
  ∧ delete_expenses (PyList [PyInt 1; inf]) false ledger
    = Raised OverflowError.
Proof.
  intros inf.
  destruct (coercion_overflow_uncaught inf ledger eq_refl)
    as ([_ Hdelete] & Hupdate & Hmany).
  split_and!.
  - reflexivity.
  - exact Hdelete.
  - exact (proj2 (Hupdate None None None None (Some "x"))).
  - apply Hmany. right. left.
Defined.

(** C5 at list_expenses("2024-02-01", "2024-02-28") on the sample ledger,
    whose only row is dated 2024-01-05. *)
Lemma list_expenses_range_witness :
  list_expenses "2024-02-01" "2024-02-28" ledger = Done [] ledger.
Proof.
  destruct (list_expenses_range "2024-02-01" "2024-02-28" ledger)
    as (es & Hcall & _ & _ & Hnone).
  rewrite Hcall, Hnone; [reflexivity|].
  intros i r Hrow [Hlo _]. unfold ledger in Hrow. simpl in Hrow.
  apply lookup_singleton_Some in Hrow as [<- <-]. exact Hlo.
Defined.

(** C9 at add_expense("2024-01-05", 4250, "Food", "Lunch", "Deli") on the
    empty ledger, then list_expenses("2024-01-01", "2024-01-31"). *)
Lemma add_then_list_witness :
  ∃ new_id s' es,
    add_expense "2024-01-05" (NumInt 4250) "Food" (Some "Lunch")
      (Some "Deli") empty_ledger
    = Done (Added ok new_id) s'
    ∧ list_expenses "2024-01-01" "2024-01-31" s' = Done es s'
    ∧ (∃ e, e ∈ es ∧ id e = new_id)
    ∧ ∀ e, e ∈ es → id e = new_id → columns e = lunch.
Proof.
  destruct (add_then_list "2024-01-05" (NumInt 4250) (real_of_int 4250)
              "Food" (Some "Lunch") (Some "Deli") empty_ledger)
    as (new_id & s' & Hadd & _ & Hlist).
  - exact fits_int64_4250.
  - reflexivity.
  - exact empty_ledger_not_exhausted.
  - destruct (Hlist "2024-01-01" "2024-01-31" I I)
      as (es & Hcall & Hin & Hcolumns).
    exists new_id, s', es. split_and!; assumption.
Defined.


End sample_calls.

(** * Further properties of the tool functions *)

Section more_facts.
Context `{!sqlite_build} (sql_sum : list real → real).
Implicit Types (s : store real) (e : expense real) (i : Z).

Global Instance by_id_trans : Transitive by_id.
Proof. intros e1 e2 e3. unfold by_id. lia. Qed.

(** Two lists of rows of one table, both in ascending id order and with the
    same members, are the same list. *)
Lemma sorted_by_id_unique (m : gmap Z (row real))
    (l1 l2 : list (expense real)) :
  (∀ e, e ∈ l1 → m !! id e = Some (columns e)) →
  (∀ e, e ∈ l1 ↔ e ∈ l2) →
  NoDup l1 → NoDup l2 →
  Sorted by_id l1 → Sorted by_id l2 →
  l1 = l2.
Proof.
  intros Hm Hmem Hnd1 Hnd2 Hs1 Hs2.
  apply (Sorted_unique_strong by_id); [|done..|by apply NoDup_Permutation].
  intros e1 e2 He1 He2%Hmem H12 H21.
  assert (id e1 = id e2) as Hid by (unfold by_id in *; lia).
  apply Hm in He1, He2. rewrite Hid in He1.
  destruct e1, e2; simpl in *; congruence.
Qed.

Lemma NoDup_order_by_id w s : NoDup (order_by_id (selected w s)).
Proof.
  eapply NoDup_fmap_1. unfold order_by_id.
  rewrite merge_sort_Permutation. apply NoDup_selected_ids.
Qed.

Lemma Sorted_filter_by_id (P : expense real → Prop)
    `{!∀ e, Decision (P e)} (l : list (expense real)) :
  Sorted by_id l → Sorted by_id (filter P l).
Proof.
  intros Hs%Sorted_StronglySorted; [|apply _].
  apply StronglySorted_Sorted.
  induction Hs as [|e l Hs IH He]; [constructor|].
  rewrite filter_cons. destruct (decide (P e)); [|done].
  constructor; [done|].
  apply Forall_forall. intros e' [_ He']%list_elem_of_filter.
  eapply Forall_forall in He; eauto.
Qed.

(** ** Deleting one expense *)

Lemma delete_expense_eq (expense_id : pyval) i s :
  py_int expense_id = Coerced i →
  fits_int64 i →
  delete_expense expense_id s
  = match rows s !! i with
    | None => Done (Deleted not_found 0) s
    | Some _ => Done (Deleted ok 1) (Store (delete i (rows s)) (seq s))
    end.
Proof.
  intros Hint Hfit. unfold delete_expense. rewrite Hint.
  unfold mbind, db_bind. rewrite execute_id by done.
  unfold delete_where. rewrite selected_count_id, delete_where_id.
  destruct (rows s !! i) as [r|] eqn:Hrow; simpl; [done|].
  rewrite delete_id by done. by destruct s.
Qed.

Lemma store_after_delete_expense (expense_id : pyval) i s :
  py_int expense_id = Coerced i →
  fits_int64 i →
  store_after (delete_expense expense_id s) s
  = Store (delete i (rows s)) (seq s).
Proof.
  intros Hint Hfit. rewrite (delete_expense_eq _ i) by done.
  destruct (rows s !! i) eqn:Hrow; simpl; [done|].
  rewrite delete_id by done. by destruct s.
Qed.

(** X1. Deleting the same id a second time finds nothing: whatever the
    first [delete_expense] did, the second returns [not_found] with 0
    deleted and changes nothing. *)
Theorem delete_expense_twice (expense_id : pyval) i s :
  py_int expense_id = Coerced i →
  fits_int64 i →
  let s1 := store_after (delete_expense expense_id s) s in
  delete_expense expense_id s1 = Done (Deleted not_found 0) s1.
Proof.
  intros Hint Hfit s1. unfold s1.
  rewrite (store_after_delete_expense _ i) by done.
  rewrite (delete_expense_eq _ i) by done. simpl.
  by rewrite lookup_delete_eq.
Qed.

(** X2. After [delete_expense] of an id, [list_expenses] over any range
    returns what it returned before, in the same order, without the row of
    that id. *)
Theorem delete_then_list (expense_id : pyval) i s
    (start_date end_date : string) :
  py_int expense_id = Coerced i →
  fits_int64 i →
  let s1 := store_after (delete_expense expense_id s) s in
  ∃ before,
    list_expenses start_date end_date s = Done before s
    ∧ list_expenses start_date end_date s1
      = Done (filter (λ e, id e ≠ i) before) s1.
Proof.
  intros Hint Hfit s1. eexists. split; [apply list_expenses_eq|].
  rewrite list_expenses_eq. f_equal.
  apply (sorted_by_id_unique (rows s1)).
  - by intros e [He _]%elem_of_order_by_id%elem_of_selected.
  - intros e.
    rewrite list_elem_of_filter, !elem_of_order_by_id, !elem_of_selected.
    unfold s1. rewrite (store_after_delete_expense _ i) by done. simpl.
    rewrite lookup_delete_Some. split.
    + intros [[Hne Hrow] Hw]. split; [congruence|done].
    + intros [Hne [Hrow Hw]]. split_and!; [congruence|done..].
  - apply NoDup_order_by_id.
  - apply NoDup_filter, NoDup_order_by_id.
  - apply Sorted_merge_sort, _.
  - apply Sorted_filter_by_id, Sorted_merge_sort, _.
Qed.

(** ** Adding an expense *)

Lemma add_expense_eq (date : string) (amount' : number) (stored : real)
    (category : string) (subcategory note : option string) s :
  let new_id := Z.max (seq s) (max_rowid (rows s)) + 1 in
  let r := Row date stored category (default "" subcategory)
             (default "" note) in
  bindable (param_of_number amount') →
  real_column amount' = Some stored →
  Z.max (seq s) (max_rowid (rows s)) < INT64_MAX →
  add_expense date amount' category subcategory note s
  = Done (Added ok new_id) (Store (<[new_id := r]> (rows s)) new_id).
Proof.
  intros new_id r Hbind Hstored Hseq. unfold add_expense, mbind, db_bind.
  rewrite execute_fixed; [|simpl; lia|by apply add_expense_params].
  unfold insert. rewrite decide_False by lia. by rewrite Hstored.
Qed.

(** [add_expense] adds the row, or raises. *)
Lemma add_expense_cases (date : string) (amount' : number)
    (category : string) (subcategory note : option string) s :
  let new_id := Z.max (seq s) (max_rowid (rows s)) + 1 in
  (∃ x, add_expense date amount' category subcategory note s = Raised x)
  ∨ ∃ r,
      add_expense date amount' category subcategory note s
      = Done (Added ok new_id) (Store (<[new_id := r]> (rows s)) new_id).
Proof.
  intros new_id.
  destruct (decide (bindable (param_of_number amount'))) as [Hbind|Hbind].
  2:{ left. eexists. unfold add_expense, mbind, db_bind.
      rewrite execute_overflow; [done| |].
      - pose proof fixed_statements_allowed. simpl. lia.
      - intros Hall. apply Forall_cons_1 in Hall as [_ Hall].
        by apply Forall_cons_1 in Hall as [Hamount _]. }
  destruct (decide (Z.max (seq s) (max_rowid (rows s)) < INT64_MAX))
    as [Hseq|Hseq].
  2:{ left. eexists. unfold add_expense, mbind, db_bind.
      rewrite execute_fixed; [|simpl; lia|by apply add_expense_params].
      unfold insert. by rewrite decide_True by lia. }
  destruct (real_column amount') as [stored|] eqn:Hstored.
  - right. eexists. by apply (add_expense_eq _ _ stored).
  - left. eexists. unfold add_expense, mbind, db_bind.
    rewrite execute_fixed; [|simpl; lia|by apply add_expense_params].
    unfold insert. rewrite decide_False by lia. by rewrite Hstored.
Qed.

(** X3. For an amount the store can hold and a sequence of ids that is
    not exhausted, [add_expense] changes no existing row, and the new row
    comes last in every listing: [list_expenses] after the call returns
    what it returned before, followed by the new row when its date is in
    the range, and nothing more when it is not. *)
Theorem add_then_list_appends (date' : string) (amount' : number)
    (stored : real) (category' : string) (subcategory' note' : option string)
    s (start_date end_date : string) :
  bindable (param_of_number amount') →
  real_column amount' = Some stored →
  Z.max (seq s) (max_rowid (rows s)) < INT64_MAX →
  ∃ new_id s' before,
    add_expense date' amount' category' subcategory' note' s
    = Done (Added ok new_id) s'
    ∧ (∀ i, i ≠ new_id → rows s' !! i = rows s !! i)
    ∧ list_expenses start_date end_date s = Done before s
    ∧ list_expenses start_date end_date s'
      = Done
          (before ++
             if between date' start_date end_date
             then [Expense new_id
                     (Row date' stored category' (default "" subcategory')
                        (default "" note'))]
             else [])
          s'.
Proof.
  intros Hbind Hstored Hseq. eexists _, _, _.
  split; [by apply (add_expense_eq _ _ stored)|].
  split; [by intros i Hi; simpl; rewrite lookup_insert_ne|].
  split; [apply list_expenses_eq|].
  rewrite list_expenses_eq. f_equal.
  set (new_id := Z.max (seq s) (max_rowid (rows s)) + 1).
  set (r := Row date' stored category' (default "" subcategory')
              (default "" note')).
  set (w := λ (_ : Z) (r : row real), between (date r) start_date end_date).
  assert (rows s !! new_id = None) as Hfresh by apply insert_fresh.
  assert (∀ e, e ∈ order_by_id (selected w s) → id e < new_id) as Hbelow.
  { intros e [He _]%elem_of_order_by_id%elem_of_selected.
    apply max_rowid_bound in He. unfold new_id. lia. }
  apply (sorted_by_id_unique (<[new_id := r]> (rows s))).
  - by intros e [He _]%elem_of_order_by_id%elem_of_selected.
  - intros e. rewrite elem_of_app, !elem_of_order_by_id, !elem_of_selected.
    simpl. rewrite lookup_insert_Some. split.
    + intros [[[Hid Hr]|[Hne Hrow]] Hw].
      * right. destruct e as [i' r']; simpl in *; subst.
        change (Is_true (between date' start_date end_date)) in Hw.
        destruct (between date' start_date end_date); [left|done].
      * by left.
    + intros [[Hrow Hw]|Hnew].
      * split; [|done]. right. split; [congruence|done].
      * destruct (between date' start_date end_date) eqn:Hw;
          [|by apply elem_of_nil in Hnew].
        apply list_elem_of_singleton in Hnew as ->. simpl.
        split; [by left|].
        change (Is_true (between date' start_date end_date)). by rewrite Hw.
  - apply NoDup_order_by_id.
  - apply NoDup_app. split_and!; [apply NoDup_order_by_id| |].
    + intros e He%Hbelow Hnew.
      destruct (between date' start_date end_date);
        [|by apply elem_of_nil in Hnew].
      apply list_elem_of_singleton in Hnew as ->. simpl in He. lia.
    + destruct (between date' start_date end_date); [|constructor].
      apply NoDup_singleton.
  - apply Sorted_merge_sort, _.
  - apply StronglySorted_Sorted, StronglySorted_app_2.
    + intros e1 e2 He1%Hbelow He2.
      destruct (between date' start_date end_date);
        [|by apply elem_of_nil in He2].
      apply list_elem_of_singleton in He2 as ->. unfold by_id. simpl. lia.
    + apply Sorted_StronglySorted; [apply _|]. apply Sorted_merge_sort, _.
    + destruct (between date' start_date end_date); repeat constructor.
Qed.

(** ** Updating an expense *)

(** The row after the assignments of a SET clause: each column is the
    supplied value, or the old one where none was supplied. *)
Lemma assign_all_set_clause (r : row real)
    (date' : option string) (amount' : option number)
    (category' subcategory' note' : option string) :
  assign_all (set_clause date' amount' category' subcategory' note') r
  = (λ a, Row (default (date r) date') a (default (category r) category')
            (default (subcategory r) subcategory')
            (default (note r) note'))
      <$> new_amount (amount r) amount'.
Proof.
  unfold assign_all, set_clause, new_amount.
  destruct r, date', amount' as [v|], category', subcategory', note';
    simpl; try destruct (real_column v); done.
Qed.

(** X4. On an id that exists, [update_expense] with at least one field,
    and with an amount the store can hold when one is supplied, returns
    [ok] with 1 updated; the row then has the supplied values in the
    supplied columns (the amount as the REAL column holds it) and its old
    values in the others, and every other row and the id counter are as
    before. *)
Theorem update_expense_partial (expense_id : pyval) i (r : row real)
    (date' : option string) (amount' : option number) (stored : real)
    (category' subcategory' note' : option string) s :
  py_int expense_id = Coerced i →
  fits_int64 i →
  rows s !! i = Some r →
  set_clause date' amount' category' subcategory' note' ≠ [] →
  (∀ n, amount' = Some (NumInt n) → fits_int64 n) →
  new_amount (amount r) amount' = Some stored →
  ∃ s',
    update_expense expense_id date' amount' category' subcategory' note' s
    = Done (Updated ok 1) s'
    ∧ rows s' !! i
      = Some (Row (default (date r) date') stored
                (default (category r) category')
                (default (subcategory r) subcategory')
                (default (note r) note'))
    ∧ (∀ j, j ≠ i → rows s' !! j = rows s !! j)
    ∧ seq s' = seq s.
Proof.
  intros Hint Hfit Hrow Hfields Hbind Hstored. eexists.
  rewrite (update_expense_eq _ i) by done.
  rewrite decide_True by (by apply set_clause_bindable).
  rewrite Hrow, assign_all_set_clause, Hstored. simpl.
  split_and!; [done| | |done]; simpl.
  - by rewrite lookup_insert_eq.
  - intros j Hj. by rewrite lookup_insert_ne.
Qed.

(** X5. With an id that coerces and fits, at least one field, and an
    amount that fits 64 bits when it is an int, [update_expense] returns
    [not_found] with 0 updated exactly when no row has the id, and then the
    store is as before. *)
Theorem update_expense_not_found (expense_id : pyval) i
    (date' : option string) (amount' : option number)
    (category' subcategory' note' : option string) s :
  py_int expense_id = Coerced i →
  fits_int64 i →
  set_clause date' amount' category' subcategory' note' ≠ [] →
  (∀ n, amount' = Some (NumInt n) → fits_int64 n) →
  update_expense expense_id date' amount' category' subcategory' note' s
  = Done (Updated not_found 0) s
  ↔ rows s !! i = None.
Proof.
  intros Hint Hfit Hfields Hbind. rewrite (update_expense_eq _ i) by done.
  rewrite decide_True by (by apply set_clause_bindable).
  destruct (rows s !! i) as [r|]; [|done].
  by destruct (assign_all _ r).
Qed.

Lemma update_expense_raises (expense_id : pyval) i
    (date' : option string) (amount' : option number)
    (category' subcategory' note' : option string) s :
  py_int expense_id = Coerced i →
  ¬ fits_int64 i →
  set_clause date' amount' category' subcategory' note' ≠ [] →
  update_expense expense_id date' amount' category' subcategory' note' s
  = Raised OverflowError.
Proof.
  intros Hint Hfit Hfields. unfold update_expense. rewrite Hint.
  pose proof (length_set_clause date' amount' category' subcategory' note')
    as Hlen.
  destruct (set_clause _ _ _ _ _) as [|a fields]; [done|].
  unfold mbind, db_bind. rewrite execute_overflow; [done| |].
  - pose proof fixed_statements_allowed.
    rewrite length_app, length_fmap. simpl in *. lia.
  - intros [_ Hid]%Forall_app. by rewrite Forall_singleton in Hid.
Qed.

(** What [update_expense] returns when it returns. *)
Lemma update_expense_returns (expense_id : pyval)
    (date' : option string) (amount' : option number)
    (category' subcategory' note' : option string) s (r : result) s1 :
  let fields := set_clause date' amount' category' subcategory' note' in
  update_expense expense_id date' amount' category' subcategory' note' s
  = Done r s1 →
  (s1 = s
   ∧ (r = Failed error "expense_id must be an integer"
      ∨ r = Failed error "provide at least one field to update"
      ∨ ∃ i, py_int expense_id = Coerced i ∧ rows s !! i = None
             ∧ fields ≠ [] ∧ r = Updated not_found 0))
  ∨ ∃ i row0 row1,
      py_int expense_id = Coerced i ∧ fits_int64 i ∧ fields ≠ []
      ∧ Forall bindable (parameter <$> fields)
      ∧ rows s !! i = Some row0 ∧ assign_all fields row0 = Some row1
      ∧ r = Updated ok 1
      ∧ s1 = Store (<[i := row1]> (rows s)) (seq s).
Proof.
  intros fields.
  destruct (py_int expense_id) as [i| |] eqn:Hint.
  2:{ unfold update_expense. rewrite Hint. intros [= <- <-]. left. eauto. }
  2:{ unfold update_expense. by rewrite Hint. }
  destruct fields as [|a fields'] eqn:Hfields.
  { unfold update_expense. rewrite Hint. fold fields. rewrite Hfields.
    intros [= <- <-]. left. eauto. }
  destruct (decide (fits_int64 i)) as [Hfit|Hfit].
  2:{ rewrite (update_expense_raises _ i); [done..|].
      fold fields. by rewrite Hfields. }
  rewrite (update_expense_eq _ i); [|done..|fold fields; by rewrite Hfields].
  fold fields. rewrite Hfields. case_decide as Hbind; [|done].
  destruct (rows s !! i) as [row0|] eqn:Hrow.
  - destruct (assign_all _ row0) as [row1|] eqn:Hrow1; [|done].
    intros [= <- <-]. right. by eexists i, row0, row1.
  - intros [= <- <-]. left. split; [done|]. right. right. by exists i.
Qed.

(** X6. [update_expense] never answers [no_change]: whatever the arguments
    and the store, a returned dict has another status. *)
Theorem update_expense_never_no_change (expense_id : pyval)
    (date' : option string) (amount' : option number)
    (category' subcategory' note' : option string) s (r : result) s' :
  update_expense expense_id date' amount' category' subcategory' note' s
  = Done r s' →
  status_of r ≠ no_change.
Proof.
  intros [[_ [->|[->|(i & _ & _ & _ & ->)]]]
         |(i & row0 & row1 & _ & _ & _ & _ & _ & _ & -> & _)]
         %update_expense_returns; done.
Qed.

(** ** Ids the database cannot hold *)

(** X7. An [expense_id] that coerces to an integer outside the signed
    64-bit range makes [delete_expense], and [update_expense] with at least
    one field, raise [OverflowError]; no dict is returned and nothing is
    written. *)
Theorem single_id_overflow (expense_id : pyval) i s :
  py_int expense_id = Coerced i →
  ¬ fits_int64 i →
  delete_expense expense_id s = Raised OverflowError
  ∧ ∀ (date' : option string) (amount' : option number)
      (category' subcategory' note' : option string),
      set_clause date' amount' category' subcategory' note' ≠ [] →
      update_expense expense_id date' amount' category' subcategory' note' s
      = Raised OverflowError.
Proof.
  intros Hint Hfit. split.
  - unfold delete_expense. rewrite Hint. unfold mbind, db_bind.
    by rewrite execute_id_overflow.
  - intros date' amount' category' subcategory' note' Hfields.
    by apply (update_expense_raises _ i).
Qed.

(** ** Deleting several expenses *)

Lemma elem_of_existing (ids : list Z) s k :
  k ∈ (list_to_set (id <$> selected (λ i _, bool_decide (i ∈ ids)) s)
        : gset Z)
  ↔ is_Some (rows s !! k) ∧ k ∈ ids.
Proof.
  rewrite elem_of_list_to_set, list_elem_of_fmap. split.
  - intros (e & -> & [He Hin%bool_decide_spec]%elem_of_selected).
    split; [by eexists|done].
  - intros [[r Hr] Hin]. exists (Expense k r). split; [done|].
    apply elem_of_selected. simpl. by rewrite bool_decide_spec.
Qed.

Lemma existing_eq (ids : list Z) s :
  (list_to_set (id <$> selected (λ i _, bool_decide (i ∈ ids)) s) : gset Z)
  = dom (rows s) ∩ list_to_set ids.
Proof.
  apply set_eq. intros k.
  by rewrite elem_of_existing, elem_of_intersection, elem_of_dom,
    elem_of_list_to_set.
Qed.

Lemma deleted_count (ids : list Z) s :
  size (filter (λ ir : Z * row real, bool_decide (ir.1 ∈ ids)) (rows s))
  = size (dom (rows s) ∩ list_to_set ids : gset Z).
Proof.
  pose (in_ids := λ i : Z, bool_decide (i ∈ ids)).
  apply (selected_count in_ids). intros i. unfold in_ids.
  rewrite elem_of_intersection, elem_of_dom, elem_of_list_to_set.
  by rewrite bool_decide_spec.
Qed.

Lemma length_sorted (X : gset Z) : length (sorted X) = size X.
Proof. unfold sorted. by rewrite merge_sort_Permutation. Qed.

Lemma delete_expenses_raises (expense_ids : pyval) (ids : list Z) s :
  expense_ids ≠ PyNone →
  coerce (raw_ids expense_ids) [] [] = Some (ids, []) →
  Z.of_nat (length ids) ≤ SQLITE_MAX_VARIABLE_NUMBER →
  ¬ Forall fits_int64 ids →
  delete_expenses expense_ids false s = Raised OverflowError.
Proof.
  intros Hv Hraw Hlen Hfit.
  rewrite (delete_expenses_coerce _ (PyList (PyInt <$> ids))); [|done..|].
  2:{ rewrite Hraw. symmetry. apply coerce_ints. }
  unfold delete_expenses.
  change (raw_ids (PyList (PyInt <$> ids))) with (PyInt <$> ids).
  rewrite coerce_ints.
  destruct ids as [|n ids']; [by destruct Hfit|].
  unfold mbind, db_bind. rewrite execute_overflow; [done| |].
  - by rewrite length_fmap.
  - by rewrite bindable_ints.
Qed.

(** X8. When the items of [expense_ids] all coerce but there are more of
    them than a statement may have parameters, [delete_expenses] raises
    [OperationalError]; when there are not, but one of the integers is
    outside the signed 64-bit range, it raises [OverflowError].  Either
    way no dict is returned and no row is deleted, not even those whose
    ids fit. *)
Theorem delete_expenses_overflow (expense_ids : pyval) (ids : list Z) s :
  expense_ids ≠ PyNone →
  Forall2 (λ item n, py_int item = Coerced n) (raw_ids expense_ids) ids →
  ¬ (Z.of_nat (length ids) ≤ SQLITE_MAX_VARIABLE_NUMBER
     ∧ Forall fits_int64 ids) →
  delete_expenses expense_ids false s
  = Raised
      (if decide (Z.of_nat (length ids) ≤ SQLITE_MAX_VARIABLE_NUMBER)
       then OverflowError
       else OperationalError "too many SQL variables")
  ∧ store_after (delete_expenses expense_ids false s) s = s.
Proof.
  intros Hv Hraw%coerce_all_valid Hnot.
  assert (delete_expenses expense_ids false s
          = Raised
              (if decide (Z.of_nat (length ids) ≤ SQLITE_MAX_VARIABLE_NUMBER)
               then OverflowError
               else OperationalError "too many SQL variables")) as ->;
    [|done].
  case_decide as Hlen.
  - apply (delete_expenses_raises _ ids); tauto.
  - apply (delete_expenses_too_many _ ids); [done..|lia].
Qed.

(** X9. When some item of [expense_ids] does not coerce to an integer,
    and [int(...)] overflows on none, [delete_expenses] deletes nothing,
    even if other items are ids of existing rows, and reports under
    "invalid" exactly the items that do not coerce, in the order given. *)
Theorem delete_expenses_invalid_items (expense_ids : pyval) s :
  let invalid := filter (λ item, py_int item = Refused) (raw_ids expense_ids) in
  expense_ids ≠ PyNone →
  Forall (λ item, py_int item ≠ Overflows) (raw_ids expense_ids) →
  invalid ≠ [] →
  delete_expenses expense_ids false s
  = Done (FailedInvalid error "expense_ids must be integers" invalid) s.
Proof.
  intros invalid Hv Hraw Hinvalid. unfold delete_expenses.
  rewrite coerce_eq by done. simpl. fold invalid.
  destruct invalid; [done|]. by destruct expense_ids.
Qed.

(** X10. The counts of a bulk delete within what a statement can bind
    add up: the number deleted plus the
    number of ids listed as missing is the number of distinct ids requested,
    and the table has lost exactly the number of rows reported as
    deleted. *)
Theorem delete_expenses_accounting (expense_ids : pyval) (ids : list Z) s :
  expense_ids ≠ PyNone →
  Forall2 (λ item n, py_int item = Coerced n) (raw_ids expense_ids) ids →
  ids ≠ [] →
  Z.of_nat (length ids) ≤ SQLITE_MAX_VARIABLE_NUMBER →
  Forall fits_int64 ids →
  ∃ st deleted missing s',
    delete_expenses expense_ids false s
    = Done (DeletedMany st deleted missing) s'
    ∧ deleted + Z.of_nat (length missing)
      = Z.of_nat (size (list_to_set ids : gset Z))
    ∧ Z.of_nat (size (rows s')) = Z.of_nat (size (rows s)) - deleted.
Proof.
  intros Hv Hraw%coerce_all_valid Hids Hlen Hfit.
  eexists _, _, _, _. split; [by apply delete_expenses_eq|].
  rewrite length_sorted, existing_eq, deleted_count. simpl.
  set (X := list_to_set ids : gset Z). set (D := dom (rows s) : gset Z).
  assert (size (D ∩ X) ≤ size X)%nat
    by apply subseteq_size, intersection_subseteq_r.
  assert (size (D ∩ X) ≤ size D)%nat
    by apply subseteq_size, intersection_subseteq_l.
  split.
  - rewrite (size_difference X (D ∩ X)) by apply intersection_subseteq_r.
    clearbody X D. lia.
  - rewrite <-(size_dom (D:=gset Z)), <-(size_dom (D:=gset Z) (rows s)).
    pose (in_ids := λ i : Z, bool_decide (i ∈ ids)).
    rewrite (dom_filter_L (λ ir : Z * row real, ¬ in_ids ir.1) _ (D ∖ X)).
    + rewrite (size_difference_alt D X).
      change (dom (rows s)) with D. clearbody X D. lia.
    + intros k. unfold in_ids, D, X.
      rewrite elem_of_difference, elem_of_dom, elem_of_list_to_set.
      unfold is_Some. setoid_rewrite bool_decide_spec. simpl.
      split; [intros [[r Hr] Hk]|intros (r & Hr & Hk)]; eauto.
Qed.

Lemma delete_expenses_set (ids : list Z) s :
  ids ≠ [] →
  Z.of_nat (length ids) ≤ SQLITE_MAX_VARIABLE_NUMBER →
  Forall fits_int64 ids →
  let X : gset Z := list_to_set ids in
  let deleted := Z.of_nat (size (dom (rows s) ∩ X)) in
  delete_expenses (PyList (PyInt <$> ids)) false s
  = Done
      (DeletedMany (if 0 <? deleted then ok else not_found) deleted
         (sorted (X ∖ (dom (rows s) ∩ X))))
      (Store (filter (λ ir, ir.1 ∉ X) (rows s)) (seq s)).
Proof.
  intros Hids Hlen Hfit X deleted.
  rewrite (delete_expenses_eq _ ids); [|done| |done..].
  2:{ apply coerce_ints. }
  rewrite existing_eq, deleted_count. fold X deleted. do 2 f_equal.
  apply map_filter_ext. intros k r _. simpl. unfold X.
  by rewrite elem_of_list_to_set, bool_decide_spec.
Qed.

(** X11. A bulk delete within the number of parameters a statement may
    have depends only on the set of ids requested: two [expense_ids]
    arguments whose items coerce to the same integers, in any order and
    with any repetition, give the same dict and the same store. *)
Theorem delete_expenses_same_ids (v1 v2 : pyval) (ids1 ids2 : list Z) s :
  v1 ≠ PyNone → v2 ≠ PyNone →
  Forall2 (λ item n, py_int item = Coerced n) (raw_ids v1) ids1 →
  Forall2 (λ item n, py_int item = Coerced n) (raw_ids v2) ids2 →
  Z.of_nat (length ids1) ≤ SQLITE_MAX_VARIABLE_NUMBER →
  Z.of_nat (length ids2) ≤ SQLITE_MAX_VARIABLE_NUMBER →
  (∀ i, i ∈ ids1 ↔ i ∈ ids2) →
  delete_expenses v1 false s = delete_expenses v2 false s.
Proof.
  intros Hv1 Hv2 Hraw1%coerce_all_valid Hraw2%coerce_all_valid
    Hlen1 Hlen2 Hsame.
  assert (∀ ids,
    coerce (raw_ids (PyList (PyInt <$> ids))) [] [] = Some (ids, []))
    as Hlist by apply coerce_ints.
  rewrite (delete_expenses_coerce v1 (PyList (PyInt <$> ids1)))
    by (done || by rewrite Hlist).
  rewrite (delete_expenses_coerce v2 (PyList (PyInt <$> ids2)))
    by (done || by rewrite Hlist).
  assert ((list_to_set ids1 : gset Z) = list_to_set ids2) as HX.
  { apply set_eq. intros i. by rewrite !elem_of_list_to_set. }
  destruct ids1 as [|n1 ids1], ids2 as [|n2 ids2].
  - done.
  - exfalso. apply (proj1 (elem_of_nil n2)), Hsame. left.
  - exfalso. apply (proj1 (elem_of_nil n1)), Hsame. left.
  - destruct (decide (Forall fits_int64 (n1 :: ids1))) as [Hfit|Hfit].
    + assert (Forall fits_int64 (n2 :: ids2)) as Hfit2.
      { rewrite Forall_forall in Hfit. apply Forall_forall.
        intros i Hi. by apply Hfit, Hsame. }
      rewrite !delete_expenses_set by done. by rewrite HX.
    + assert (¬ Forall fits_int64 (n2 :: ids2)) as Hfit2.
      { intros Hfit2. apply Hfit. rewrite Forall_forall in Hfit2.
        apply Forall_forall. intros i Hi. by apply Hfit2, Hsame. }
      rewrite (delete_expenses_raises _ (n1 :: ids1)) by done.
      by rewrite (delete_expenses_raises _ (n2 :: ids2)).
Qed.


(** X13. A string made of commas and white space only, the empty string
    included, holds no id: [delete_expenses] answers "no valid expense_ids
    provided" and deletes nothing. *)
Theorem delete_expenses_blank_string (text : string) s :
  Forall (λ c, is_separator c) (list_ascii_of_string text) →
  delete_expenses (PyStr text) false s
  = Done (Failed error "no valid expense_ids provided") s.
Proof.
  intros Hblank.
  assert (∀ cur, filter (λ t, t ≠ "") (pieces cur text)
                 = filter (λ t, t ≠ "") [cur]) as Hpieces.
  { induction text as [|c text IH]; intros cur; [done|].
    simpl in Hblank. apply Forall_cons in Hblank as [Hc Hblank]. simpl.
    destruct (is_separator c); [|done].
    by rewrite filter_cons, (IH Hblank), (filter_cons _ cur). }
  assert (tokens text = []) as Htokens.
  { unfold tokens. by rewrite Hpieces. }
  unfold delete_expenses. by rewrite raw_ids_string, Htokens.
Qed.

(** ** Listing and summarising *)

Lemma selected_none (w : Z → row real → bool) s :
  (∀ i r, rows s !! i = Some r → ¬ w i r) → selected w s = [].
Proof.
  intros Hnone. destruct (selected w s) as [|e es] eqn:Hes; [done|].
  assert (e ∈ selected w s) as [Hrow Hw]%elem_of_selected
    by (rewrite Hes; left).
  by destruct (Hnone _ _ Hrow).
Qed.

(** X14. A range whose end is before its start is empty:
    [list_expenses] and [summarize] both return the empty list, whatever
    the store and the category. *)
Theorem inverted_range_is_empty (start_date end_date : string)
    (category_filter : option string) s :
  ¬ (start_date ≤ end_date)%string →
  list_expenses start_date end_date s = Done [] s
  ∧ summarize sql_sum start_date end_date category_filter s = Done [] s.
Proof.
  intros Hinv. split.
  - rewrite list_expenses_eq, selected_none; [done|].
    intros i r _ [Hlo Hhi]%between_le. apply Hinv. by etrans.
  - rewrite summarize_eq, selected_none; [done|].
    intros i r _ (Hlo & Hhi & _)%where_clause_in_scope.
    apply Hinv. by etrans.
Qed.

(** X15. With a non-empty category filter, [summarize] returns at most one
    entry, and that entry is for the category asked for. *)
Theorem summarize_one_category (start_date end_date c : string) s :
  c ≠ "" →
  ∃ out,
    summarize sql_sum start_date end_date (Some c) s = Done out s
    ∧ (out = [] ∨ ∃ total, out = [Summary c total]).
Proof.
  intros Hc. eexists. split; [apply summarize_eq|].
  set (es := selected _ s).
  pose proof (group_by_category_categories sql_sum es) as Hcats.
  assert (∀ c', c' ∈ summary_category <$> group_by_category sql_sum es →
                c' = c) as Hall.
  { intros c'. rewrite Hcats, elem_of_merge_sort, elem_of_remove_dups.
    rewrite <-list_fmap_compose.
    intros (e & -> & [_ Hw]%elem_of_selected)%list_elem_of_fmap.
    apply where_clause_in_scope in Hw as (_ & _ & Hw). by apply Hw. }
  assert (NoDup (summary_category <$> group_by_category sql_sum es)) as Hnd.
  { rewrite Hcats, merge_sort_Permutation. apply NoDup_remove_dups. }
  destruct (group_by_category sql_sum es) as [|[c1 t1] [|[c2 t2] out]];
    [by left| |].
  - right. exists t1. simpl in Hall.
    assert (c1 = c) as H1 by (apply Hall; left).
    rewrite H1. reflexivity.
  - exfalso. simpl in *.
    apply NoDup_cons in Hnd as [Hnotin _]. apply Hnotin.
    assert (c1 = c) as H1 by (apply Hall; left).
    assert (c2 = c) as H2 by (apply Hall; right; left).
    rewrite H1, H2. left.
Qed.

(** X16. Without a category filter, the categories [summarize] reports
    for a range are exactly the categories of the rows [list_expenses]
    returns for that range. *)
Theorem summarize_categories_of_list (start_date end_date : string) s :
  ∃ out es,
    summarize sql_sum start_date end_date None s = Done out s
    ∧ list_expenses start_date end_date s = Done es s
    ∧ ∀ c, c ∈ summary_category <$> out
           ↔ ∃ e, e ∈ es ∧ category (columns e) = c.
Proof.
  eexists _, _. split; [apply summarize_eq|].
  split; [apply list_expenses_eq|].
  intros c. rewrite group_by_category_categories.
  rewrite elem_of_merge_sort, elem_of_remove_dups.
  rewrite <-list_fmap_compose, list_elem_of_fmap.
  split.
  - intros (e & -> & He). exists e. split; [|done].
    apply elem_of_order_by_id. exact He.
  - intros (e & He & <-). exists e. split; [done|].
    apply (proj1 (elem_of_order_by_id _ _)) in He. exact He.
Qed.

(** ** Sessions *)

Lemma no_new_ids_refl s : no_new_ids s s.
Proof. by split. Qed.

Lemma delete_expense_no_new_ids (expense_id : pyval) s :
  no_new_ids s (store_after (delete_expense expense_id s) s).
Proof.
  destruct (py_int expense_id) as [i| |] eqn:Hint.
  2,3: unfold delete_expense; rewrite Hint; apply no_new_ids_refl.
  destruct (decide (fits_int64 i)) as [Hfit|Hfit].
  - rewrite (store_after_delete_expense _ i) by done. split; [done|].
    intros k [r Hr]. simpl in Hr.
    apply lookup_delete_Some in Hr as [_ Hr]. by exists r.
  - unfold delete_expense. rewrite Hint. unfold mbind, db_bind.
    rewrite execute_id_overflow by done. apply no_new_ids_refl.
Qed.

Lemma update_expense_no_new_ids (expense_id : pyval)
    (date' : option string) (amount' : option number)
    (category' subcategory' note' : option string) s :
  no_new_ids s
    (store_after
       (update_expense expense_id date' amount' category' subcategory'
          note' s) s).
Proof.
  destruct (update_expense _ _ _ _ _ _ s) as [r s1|x] eqn:Hcall;
    [|apply no_new_ids_refl].
  apply update_expense_returns in Hcall
    as [[-> _]|(i & row0 & row1 & _ & _ & _ & _ & Hrow & _ & _ & ->)];
    [apply no_new_ids_refl|].
  split; [done|]. intros k. simpl.
  rewrite lookup_insert_is_Some. intros [<-|[_ Hk]]; [by eexists|done].
Qed.

Lemma delete_expenses_no_new_ids (expense_ids : pyval) (delete_all : bool) s :
  no_new_ids s (store_after (delete_expenses expense_ids delete_all s) s).
Proof.
  destruct delete_all.
  { unfold delete_expenses, mbind, db_bind.
    rewrite (execute_texts _ []) by (simpl; lia).
    rewrite delete_where_all.
    split; [done|]. intros k [r Hr]. simpl in Hr.
    by rewrite lookup_empty in Hr. }
  destruct (decide (expense_ids = PyNone)) as [->|Hv];
    [apply no_new_ids_refl|].
  destruct (coerce (raw_ids expense_ids) [] []) as [[ids invalid]|] eqn:Hraw.
  2:{ unfold delete_expenses. rewrite Hraw.
      destruct expense_ids; apply no_new_ids_refl. }
  destruct invalid as [|bad invalid].
  2:{ unfold delete_expenses. rewrite Hraw.
      destruct expense_ids; apply no_new_ids_refl. }
  destruct ids as [|n ids].
  { unfold delete_expenses. rewrite Hraw.
    destruct expense_ids; apply no_new_ids_refl. }
  destruct (decide (Z.of_nat (length (n :: ids))
                    ≤ SQLITE_MAX_VARIABLE_NUMBER)) as [Hlen|Hlen].
  2:{ rewrite (delete_expenses_too_many _ (n :: ids)) by (done || lia).
      apply no_new_ids_refl. }
  destruct (decide (Forall fits_int64 (n :: ids))) as [Hfit|Hfit].
  - rewrite (delete_expenses_eq _ (n :: ids)) by done.
    split; [done|]. intros k [r Hr]. simpl in Hr.
    apply map_lookup_filter_Some in Hr as [Hr _]. by exists r.
  - rewrite (delete_expenses_raises _ (n :: ids)) by done.
    apply no_new_ids_refl.
Qed.

Lemma step_call_no_new_ids (c : call) s :
  no_new_ids s (step (DoCall c) s).
Proof.
  destruct c; simpl.
  - apply delete_expense_no_new_ids.
  - apply delete_expenses_no_new_ids.
  - apply update_expense_no_new_ids.
Qed.

Lemma max_rowid_le (m : gmap Z (row real)) (b : Z) :
  0 ≤ b → (∀ i r, m !! i = Some r → i ≤ b) → max_rowid m ≤ b.
Proof.
  intros Hb Hm. unfold max_rowid.
  assert (∀ i, i ∈ (map_to_list m).*1 → i ≤ b) as Hl.
  { intros i ([i' r] & -> & Hin%elem_of_map_to_list)%list_elem_of_fmap.
    by eapply Hm. }
  induction (map_to_list m).*1 as [|i l IH]; simpl; [done|].
  apply Z.max_lub; [apply Hl; left|].
  apply IH. intros k Hk. apply Hl. by right.
Qed.

(** With ids up to the counter, the counter is what AUTOINCREMENT
    continues from. *)
Lemma ids_bounded_largest s :
  ids_bounded s → Z.max (seq s) (max_rowid (rows s)) = seq s.
Proof.
  intros [Hseq Hids].
  assert (max_rowid (rows s) ≤ seq s); [|lia].
  apply max_rowid_le; [done|]. intros i r Hr. by apply (Hids i r).
Qed.

Lemma adds_cons (cmd : command) (cmds : list command) :
  adds (cmd :: cmds) = (if is_add cmd then 1 else 0) + adds cmds.
Proof.
  unfold adds. rewrite filter_cons.
  destruct (decide (is_add cmd)) as [Hadd|Hadd];
    destruct (is_add cmd); try done.
  rewrite length_cons. lia.
Qed.

Lemma adds_nonneg (cmds : list command) : 0 ≤ adds cmds.
Proof. unfold adds. lia. Qed.

(** A call keeps the ids within the counter; the counter stays, or moves
    up by one when the call is an [add_expense] that succeeds. *)
Lemma step_ids_bounded (cmd : command) s :
  ids_bounded s →
  ids_bounded (step cmd s)
  ∧ seq s ≤ seq (step cmd s) ≤ seq s + (if is_add cmd then 1 else 0).
Proof.
  intros Hs. pose proof (ids_bounded_largest s Hs) as Hmax.
  destruct Hs as [Hseq Hids].
  destruct cmd as [d a c sc n|c]; simpl.
  - destruct (add_expense_cases d a c sc n s) as [[x ->]|[r ->]]; simpl.
    { split; [done|lia]. }
    rewrite Hmax. split; [|lia]. split; simpl; [lia|]. intros i r'.
    rewrite lookup_insert_Some. intros [[<- _]|[_ Hr]]; [lia|].
    apply Hids in Hr. lia.
  - destruct (step_call_no_new_ids c s) as [Heq Hsub]. simpl in Heq, Hsub.
    split; [|lia]. split; [lia|]. intros i r Hr.
    destruct (Hsub i) as [r' Hr']; [by eexists|].
    rewrite Heq. by apply (Hids i r').
Qed.

Lemma session_invariant (cmds : list command) s :
  ids_bounded s →
  ids_bounded (session cmds s)
  ∧ seq s ≤ seq (session cmds s) ≤ seq s + adds cmds.
Proof.
  revert s. induction cmds as [|cmd cmds IH]; intros s Hs.
  { split; [done|]. unfold adds. simpl. lia. }
  destruct (step_ids_bounded cmd s Hs) as [Hs' Hseq].
  destruct (IH _ Hs') as [Hs'' Hseq'']. split; [done|].
  change (session (cmd :: cmds) s) with (session cmds (step cmd s)).
  rewrite adds_cons. lia.
Qed.

(** X17. The ids in the table stay positive and at most the counter
    through any sequence of calls, those that raise included; the counter
    never goes down and moves up by at most one per [add_expense]; and the
    next [add_expense], when the amount can be stored and the counter is
    below the largest 64-bit integer, returns the counter plus one. *)
Theorem session_ids_bounded (cmds : list command) s
    (date' : string) (amount' : number) (category' : string)
    (subcategory' note' : option string) :
  ids_bounded s →
  let s1 := session cmds s in
  ids_bounded s1
  ∧ seq s ≤ seq s1 ≤ seq s + adds cmds
  ∧ (bindable (param_of_number amount') →
     is_Some (real_column amount') →
     seq s1 < INT64_MAX →
     ∃ s2,
       add_expense date' amount' category' subcategory' note' s1
       = Done (Added ok (seq s1 + 1)) s2).
Proof.
  intros Hs s1. destruct (session_invariant cmds s Hs) as [Hs1 Hseq].
  split; [done|]. split; [done|]. intros Hbind [stored Hstored] Hfree.
  pose proof (ids_bounded_largest s1 Hs1) as Hmax.
  eexists. rewrite (add_expense_eq _ _ stored) by (done || lia).
  by rewrite Hmax.
Qed.

(** X18. An id is never handed out twice: when the amounts can be stored
    and the ids cannot run out, whatever calls come after an
    [add_expense] (deletions of that very row and [delete_all] included),
    a later [add_expense] returns a strictly larger id. *)
Theorem ids_never_reused (cmds : list command) s
    (date1 : string) (amount1 : number) (category1 : string)
    (subcategory1 note1 : option string)
    (date2 : string) (amount2 : number) (category2 : string)
    (subcategory2 note2 : option string) :
  ids_bounded s →
  bindable (param_of_number amount1) → is_Some (real_column amount1) →
  bindable (param_of_number amount2) → is_Some (real_column amount2) →
  seq s + adds cmds + 1 < INT64_MAX →
  ∃ id1 s1 id2 s2,
    add_expense date1 amount1 category1 subcategory1 note1 s
    = Done (Added ok id1) s1
    ∧ add_expense date2 amount2 category2 subcategory2 note2
        (session cmds s1)
      = Done (Added ok id2) s2
    ∧ id1 < id2.
Proof.
  intros Hs Hbind1 [stored1 Hstored1] Hbind2 [stored2 Hstored2] Hfree.
  pose proof (adds_nonneg cmds) as Hadds.
  pose proof (ids_bounded_largest s Hs) as Hmax.
  pose proof (step_ids_bounded (DoAdd date1 amount1 category1 subcategory1
                                  note1) s Hs) as [Hs1 _].
  simpl in Hs1.
  rewrite (add_expense_eq _ _ stored1) in Hs1 by (done || lia).
  simpl in Hs1. rewrite Hmax in Hs1.
  set (s1 := Store _ _) in Hs1.
  destruct (session_invariant cmds s1 Hs1) as [Hs2 Hseq]. simpl in Hseq.
  pose proof (ids_bounded_largest _ Hs2) as Hmax2.
  eexists _, _, _, _. split.
  { rewrite (add_expense_eq _ _ stored1) by (done || lia).
    by rewrite Hmax. }
  fold s1. split.
  { by rewrite (add_expense_eq _ _ stored2) by (done || lia). }
  lia.
Qed.

(** X19. On a file without the table, [init_db] creates an empty one from
    which the ids are handed out upwards from 1: the first [add_expense]
    returns 1, and after any calls the next one returns an id between 1
    and one more than the number of [add_expense] calls so far (provided
    the amount can be stored and that number is below the largest 64-bit
    integer). *)
Theorem fresh_database_ids (cmds : list command)
    (date' : string) (amount' : number) (category' : string)
    (subcategory' note' : option string) :
  bindable (param_of_number amount') →
  is_Some (real_column amount') →
  adds cmds + 1 < INT64_MAX →
  (∃ s',
     add_expense date' amount' category' subcategory' note' (init_db None)
     = Done (Added ok 1) s')
  ∧ ∃ new_id s',
      add_expense date' amount' category' subcategory' note'
        (session cmds (init_db None))
      = Done (Added ok new_id) s'
      ∧ 1 ≤ new_id ≤ adds cmds + 1.
Proof.
  intros Hbind [stored Hstored] Hfree.
  pose proof (adds_nonneg cmds) as Hadds.
  assert (ids_bounded (init_db None)) as Hinit.
  { split; [done|]. intros i r Hr. simpl in Hr.
    by rewrite lookup_empty in Hr. }
  split.
  { eexists. by rewrite (add_expense_eq _ _ stored). }
  destruct (session_invariant cmds _ Hinit) as [Hs1 Hseq].
  pose proof (ids_bounded_largest _ Hs1) as Hmax.
  change (seq (init_db None)) with 0 in Hseq.
  eexists _, _. split.
  { by rewrite (add_expense_eq _ _ stored) by (done || lia). }
  lia.
Qed.

(** ** Repeating an update *)

Lemma assign_all_twice (r r1 : row real)
    (date' : option string) (amount' : option number)
    (category' subcategory' note' : option string) :
  let fields := set_clause date' amount' category' subcategory' note' in
  assign_all fields r = Some r1 → assign_all fields r1 = Some r1.
Proof.
  intros fields. unfold fields. rewrite !assign_all_set_clause.
  unfold new_amount.
  destruct date', amount' as [v|], category', subcategory', note';
    simpl; try destruct (real_column v); simpl; intros [= <-]; try done;
    by destruct r.
Qed.

(** X20. Repeating an [update_expense] call changes nothing more: made
    again on the store the first call left, the same call returns the same
    dict and leaves that store as it is. *)
Theorem update_expense_repeat (expense_id : pyval)
    (date' : option string) (amount' : option number)
    (category' subcategory' note' : option string) s (r : result) s1 :
  update_expense expense_id date' amount' category' subcategory' note' s
  = Done r s1 →
  update_expense expense_id date' amount' category' subcategory' note' s1
  = Done r s1.
Proof.
  intros Hcall. pose proof Hcall as Hfirst.
  apply update_expense_returns in Hcall
    as [[-> _]|(i & row0 & row1 & Hint & Hfit & Hfields & Hbind & Hrow
                & Hrow1 & -> & ->)]; [done|].
  rewrite (update_expense_eq _ i) by done.
  rewrite decide_True by done. simpl.
  rewrite lookup_insert_eq, (assign_all_twice row0 row1) by done.
  by rewrite insert_insert_eq.
Qed.

(** ** An amount that is not a number *)


(** ** The tokens of a string *)

Lemma chars_snoc (cur : string) (c : ascii) :
  list_ascii_of_string (Str.snoc cur c) = list_ascii_of_string cur ++ [c].
Proof.
  unfold Str.snoc. induction cur as [|c' cur IH]; [done|].
  simpl. by rewrite IH.
Qed.

Lemma pieces_clean (cur text t : string) :
  Forall (λ c, ¬ is_separator c) (list_ascii_of_string cur) →
  t ∈ pieces cur text →
  Forall (λ c, ¬ is_separator c) (list_ascii_of_string t).
Proof.
  revert cur. induction text as [|c text IH]; intros cur Hcur; simpl.
  { by intros ->%list_elem_of_singleton. }
  destruct (is_separator c) eqn:Hc.
  - intros [->|Ht]%elem_of_cons; [done|].
    by apply (IH EmptyString).
  - apply IH. rewrite chars_snoc. apply Forall_app. split; [done|].
    apply Forall_singleton. rewrite Hc. by intros [].
Qed.

(** X21. Every item that [delete_expenses] takes from a string is a
    non-empty string without comma or white space. *)
Theorem raw_ids_string_items (text : string) (item : pyval) :
  item ∈ raw_ids (PyStr text) →
  ∃ t,
    item = PyStr t
    ∧ t ≠ ""
    ∧ Forall (λ c, ¬ is_separator c) (list_ascii_of_string t).
Proof.
  rewrite raw_ids_string. unfold tokens.
  intros (t & -> & [Ht Hin]%list_elem_of_filter)%list_elem_of_fmap.
  exists t. split_and!; [done..|].
  by eapply pieces_clean; [|exact Hin].
Qed.

End more_facts.

(** * Instances of the further properties on the sample ledger *)

Section sample_more.
Existing Instance default_build.

Lemma not_fits_int64_2_63 : ¬ fits_int64 (2 ^ 63).
Proof. intros [_ Hmax]. by vm_compute in Hmax. Defined.

Lemma fits_int64_100 : fits_int64 100.
Proof. by vm_compute. Defined.

Lemma ids_bounded_empty_ledger : ids_bounded empty_ledger.
Proof.
  split; [done|]. intros i r Hr. simpl in Hr.
  rewrite lookup_empty in Hr. discriminate.
Defined.

Lemma three_ids_allowed :
  Z.of_nat (length [1; 99; 1]) ≤ SQLITE_MAX_VARIABLE_NUMBER.
Proof. by vm_compute. Defined.

(** X1 at delete_expense(1), twice, on the sample ledger. *)
Lemma delete_expense_twice_witness :
  let s1 := store_after (delete_expense (PyInt 1) ledger) ledger in
  delete_expense (PyInt 1) s1 = Done (Deleted not_found 0) s1.
Proof.
  exact (delete_expense_twice (PyInt 1) 1 ledger eq_refl fits_int64_1).
Defined.

(** X2 at delete_expense(1), then list_expenses over January 2024. *)
Lemma delete_then_list_witness :
  let s1 := store_after (delete_expense (PyInt 1) ledger) ledger in
  ∃ before,
    list_expenses "2024-01-01" "2024-01-31" ledger = Done before ledger
    ∧ list_expenses "2024-01-01" "2024-01-31" s1
      = Done (filter (λ e, id e ≠ 1) before) s1.
Proof.
  exact (delete_then_list (PyInt 1) 1 ledger "2024-01-01" "2024-01-31"
           eq_refl fits_int64_1).
Defined.

(** X3 at add_expense("2024-01-06", 100, "Travel") on the sample ledger,
    then list_expenses over January 2024. *)
Lemma add_then_list_appends_witness :
  ∃ new_id s' before,
    add_expense "2024-01-06" (NumInt 100) "Travel" None None ledger
    = Done (Added ok new_id) s'
    ∧ list_expenses "2024-01-01" "2024-01-31" ledger = Done before ledger
    ∧ list_expenses "2024-01-01" "2024-01-31" s'
      = Done
          (before ++
             [Expense new_id
                (Row "2024-01-06" (real_of_int 100) "Travel" "" "")])
          s'.
Proof.
  destruct (add_then_list_appends "2024-01-06" (NumInt 100) (real_of_int 100)
              "Travel" None None ledger "2024-01-01" "2024-01-31")
    as (new_id & s' & before & Hadd & _ & Hbefore & Hafter).
  - exact fits_int64_100.
  - reflexivity.
  - exact ledger_not_exhausted.
  - exists new_id, s', before. split_and!; assumption.
Defined.

(** X4 at update_expense(1, date="2024-02-02", amount=99.5, note="moved"),
    the amount being the float 99.5. *)
Lemma update_expense_partial_witness :
  let amount' := S754_finite false 7001690045677568 (-46) in
  ∃ s',
    update_expense (PyInt 1) (Some "2024-02-02") (Some (NumFloat amount'))
      None None (Some "moved") ledger
    = Done (Updated ok 1) s'
    ∧ rows s' !! 1 = Some (Row "2024-02-02" amount' "Food" "Lunch" "moved")
    ∧ (∀ j, j ≠ 1 → rows s' !! j = rows ledger !! j)
    ∧ seq s' = seq ledger.
Proof.
  intros amount'.
  apply (update_expense_partial (PyInt 1) 1 lunch (Some "2024-02-02")
           (Some (NumFloat amount')) amount' None None (Some "moved")
           ledger).
  - reflexivity.
  - exact fits_int64_1.
  - reflexivity.
  - discriminate.
  - discriminate.
  - reflexivity.
Defined.

(** X5 at update_expense(99, note="x"): no row has id 99. *)
Lemma update_expense_not_found_witness :
  update_expense (PyInt 99) None None None None (Some "x") ledger
  = Done (Updated not_found 0) ledger
  ↔ rows ledger !! 99 = None.
Proof.
  apply (update_expense_not_found (PyInt 99) 99 None None None None
           (Some "x") ledger).
  - reflexivity.
  - exact fits_int64_99.
  - discriminate.
  - discriminate.
Defined.

(** X6 at update_expense(1, date="2024-01-05"), the stored date. *)
Lemma update_expense_never_no_change_witness :
  update_expense (PyInt 1) (Some "2024-01-05") None None None None ledger
  = Done (Updated ok 1) ledger
  ∧ status_of (Updated ok 1) ≠ no_change.
Proof.
  assert (update_expense (PyInt 1) (Some "2024-01-05") None None None None
            ledger
          = Done (Updated ok 1) ledger) as Hcall
    by (vm_compute; reflexivity).
  split; [exact Hcall|].
  exact (update_expense_never_no_change (PyInt 1) (Some "2024-01-05") None
           None None None ledger (Updated ok 1) ledger Hcall).
Defined.

(** X7 at the id 2^63. *)
Lemma single_id_overflow_witness :
  delete_expense (PyInt (2 ^ 63)) ledger = Raised OverflowError
  ∧ ∀ (date' : option string) (amount' : option number)
      (category' subcategory' note' : option string),
      set_clause date' amount' category' subcategory' note' ≠ [] →
      update_expense (PyInt (2 ^ 63)) date' amount' category' subcategory'
        note' ledger
      = Raised OverflowError.
Proof.
  exact (single_id_overflow (PyInt (2 ^ 63)) (2 ^ 63) ledger eq_refl
           not_fits_int64_2_63).
Defined.

(** X8 at delete_expenses([1, 2^63]). *)
Lemma delete_expenses_overflow_witness :
  delete_expenses (PyList [PyInt 1; PyInt (2 ^ 63)]) false ledger
  = Raised OverflowError
  ∧ store_after
      (delete_expenses (PyList [PyInt 1; PyInt (2 ^ 63)]) false ledger)
      ledger
    = ledger.
Proof.
  destruct (delete_expenses_overflow (PyList [PyInt 1; PyInt (2 ^ 63)])
              [1; 2 ^ 63] ledger) as [Hcall Hstore].
  - discriminate.
  - repeat constructor.
  - intros [_ Hfit]. apply Forall_cons in Hfit as [_ Hfit].
    apply Forall_cons in Hfit as [Hfit _]. exact (not_fits_int64_2_63 Hfit).
  - split; [|exact Hstore]. rewrite Hcall. vm_compute. reflexivity.
Defined.

(** X9 at delete_expenses("1, x, 2y"). *)
Lemma delete_expenses_invalid_items_witness :
  delete_expenses (PyStr "1, x, 2y") false ledger
  = Done
      (FailedInvalid error "expense_ids must be integers"
         [PyStr "x"; PyStr "2y"])
      ledger.
Proof.
  apply (delete_expenses_invalid_items (PyStr "1, x, 2y") ledger).
  - discriminate.
  - repeat constructor; discriminate.
  - discriminate.
Defined.

(** X10 at delete_expenses([1, 99, 1]). *)
Lemma delete_expenses_accounting_witness :
  ∃ st deleted missing s',
    delete_expenses (PyList [PyInt 1; PyInt 99; PyInt 1]) false ledger
    = Done (DeletedMany st deleted missing) s'
    ∧ deleted + Z.of_nat (length missing)
      = Z.of_nat (size (list_to_set [1; 99; 1] : gset Z))
    ∧ Z.of_nat (size (rows s')) = Z.of_nat (size (rows ledger)) - deleted.
Proof.
  apply (delete_expenses_accounting (PyList [PyInt 1; PyInt 99; PyInt 1])
           [1; 99; 1] ledger).
  - discriminate.
  - repeat constructor.
  - discriminate.
  - exact three_ids_allowed.
  - constructor; [exact fits_int64_1|].
    constructor; [exact fits_int64_99|].
    constructor; [exact fits_int64_1|]. constructor.
Defined.

(** X11 at the string "1, 99, 1" against the list [99, 1]. *)
Lemma delete_expenses_same_ids_witness :
  delete_expenses (PyStr "1, 99, 1") false ledger
  = delete_expenses (PyList [PyInt 99; PyInt 1]) false ledger.
Proof.
  apply (delete_expenses_same_ids (PyStr "1, 99, 1")
           (PyList [PyInt 99; PyInt 1]) [1; 99; 1] [99; 1] ledger).
  - discriminate.
  - discriminate.
  - repeat constructor.
  - repeat constructor.
  - exact three_ids_allowed.
  - vm_compute. discriminate.
  - intros i. rewrite !elem_of_cons, !elem_of_nil. tauto.
Defined.


(** X13 at delete_expenses(" , "). *)
Lemma delete_expenses_blank_string_witness :
  delete_expenses (PyStr " , ") false ledger
  = Done (Failed error "no valid expense_ids provided") ledger.
Proof.
  apply (delete_expenses_blank_string " , " ledger).
  repeat constructor.
Defined.

(** X14 at the range from 2024-02-01 back to 2024-01-01. *)
Lemma inverted_range_is_empty_witness :
  list_expenses "2024-02-01" "2024-01-01" ledger = Done [] ledger
  ∧ summarize fsum "2024-02-01" "2024-01-01" None ledger = Done [] ledger.
Proof.
  apply (inverted_range_is_empty fsum "2024-02-01" "2024-01-01" None ledger).
  intros Hle. exact Hle.
Defined.

(** X15 at summarize(..., category="Food"). *)
Lemma summarize_one_category_witness :
  ∃ out,
    summarize fsum "2024-01-01" "2024-12-31" (Some "Food") ledger
    = Done out ledger
    ∧ (out = [] ∨ ∃ total, out = [Summary "Food" total]).
Proof.
  apply (summarize_one_category fsum "2024-01-01" "2024-12-31" "Food" ledger).
  discriminate.
Defined.

(** X17 at an add followed by the deletion of the row it made. *)
Lemma session_ids_bounded_witness :
  let cmds := [DoAdd "2024-01-05" (NumInt 4250) "Food" None None;
               DoCall (Delete (PyInt 1))] in
  let s1 := session cmds empty_ledger in
  ids_bounded s1
  ∧ seq empty_ledger ≤ seq s1 ≤ seq empty_ledger + adds cmds
  ∧ ∃ s2,
      add_expense "2024-01-06" (NumInt 100) "Travel" None None s1
      = Done (Added ok (seq s1 + 1)) s2.
Proof.
  intros cmds s1.
  destruct (session_ids_bounded cmds empty_ledger "2024-01-06" (NumInt 100)
              "Travel" None None ids_bounded_empty_ledger)
    as (Hbounded & Hseq & Hnext).
  split_and!; [exact Hbounded|apply Hseq..|].
  apply Hnext.
  - exact fits_int64_100.
  - eexists. reflexivity.
  - vm_compute. reflexivity.
Defined.

(** X18 at two adds with a delete_all in between, from the empty
    ledger. *)
Lemma ids_never_reused_witness :
  ∃ id1 s1 id2 s2,
    add_expense "2024-01-05" (NumInt 4250) "Food" None None empty_ledger
    = Done (Added ok id1) s1
    ∧ add_expense "2024-01-06" (NumInt 100) "Travel" None None
        (session [DoCall (DeleteMany PyNone true)] s1)
      = Done (Added ok id2) s2
    ∧ id1 < id2.
Proof.
  apply (ids_never_reused [DoCall (DeleteMany PyNone true)] empty_ledger
           "2024-01-05" (NumInt 4250) "Food" None None
           "2024-01-06" (NumInt 100) "Travel" None None).
  - exact ids_bounded_empty_ledger.
  - exact fits_int64_4250.
  - eexists. reflexivity.
  - exact fits_int64_100.
  - eexists. reflexivity.
  - vm_compute. reflexivity.
Defined.

(** X19 at a fresh database after one add and the deletion of its row. *)
Lemma fresh_database_ids_witness :
  let cmds := [DoAdd "2024-01-05" (NumInt 4250) "Food" None None;
               DoCall (Delete (PyInt 1))] in
  (∃ s',
     add_expense "2024-01-06" (NumInt 100) "Travel" None None (init_db None)
     = Done (Added ok 1) s')
  ∧ ∃ new_id s',
      add_expense "2024-01-06" (NumInt 100) "Travel" None None
        (session cmds (init_db None))
      = Done (Added ok new_id) s'
      ∧ 1 ≤ new_id ≤ adds cmds + 1.
Proof.
  intros cmds.
  apply (fresh_database_ids cmds "2024-01-06" (NumInt 100) "Travel" None
           None).
  - exact fits_int64_100.
  - eexists. reflexivity.
  - vm_compute. reflexivity.
Defined.

(** X20 at update_expense(1, date="2024-03-03"), twice. *)
Lemma update_expense_repeat_witness :
  let s1 :=
    Store {[ 1 := Row "2024-03-03" (real_of_int 4250) "Food" "Lunch" "Deli" ]}
      1 in
  update_expense (PyInt 1) (Some "2024-03-03") None None None None ledger
  = Done (Updated ok 1) s1
  ∧ update_expense (PyInt 1) (Some "2024-03-03") None None None None s1
    = Done (Updated ok 1) s1.
Proof.
  intros s1.
  assert (update_expense (PyInt 1) (Some "2024-03-03") None None None None
            ledger
          = Done (Updated ok 1) s1) as Hcall
    by (vm_compute; reflexivity).
  split; [exact Hcall|].
  exact (update_expense_repeat (PyInt 1) (Some "2024-03-03") None None None
           None ledger (Updated ok 1) s1 Hcall).
Defined.

(** X21 at the first item of "1, 2". *)
Lemma raw_ids_string_items_witness :
  PyStr "1" ∈ raw_ids (PyStr "1, 2")
  ∧ ∃ t,
      PyStr "1" = PyStr t
      ∧ t ≠ ""
      ∧ Forall (λ c, ¬ is_separator c) (list_ascii_of_string t).
Proof.
  assert (PyStr "1" ∈ raw_ids (PyStr "1, 2")) as Hin by (vm_compute; left).
  split; [exact Hin|].
  exact (raw_ids_string_items "1, 2" (PyStr "1") Hin).
Defined.

(** X22 at delete_expense("abc") on the sample ledger. *)
Lemma validation_failure_reported_witness :
  py_int (PyStr "abc") = Refused
  ∧ ∃ r message,
      delete_expense (PyStr "abc") ledger = Done r ledger
      ∧ status_of r = error ∧ message_of r = Some message.
Proof.
  split; [reflexivity|].
  apply (validation_failure_reported (Delete (PyStr "abc")) ledger).
  - apply delete_id_malformed. intros [n Hn]. discriminate.
  - repeat constructor. discriminate.
Defined.


End sample_more.
